(** * The local cache of dvc: status, transfers, links and protection

    A shallow embedding of [dvc/remote/local.py] (class [RemoteLOCAL]).
    The methods talk to the host file system, to the state index, to
    the logger and to a remote cache; all of these live outside the
    class.  Every such call is a constructor of [call]; a method is a
    finite tree of calls ([prog]) and is run against an arbitrary
    environment ([env]) that answers each call with a value or an
    exception and records the calls made. *)

From Stdlib Require Import ZArith String Ascii.
From stdpp Require Import gmap strings list.

Local Open Scope Z_scope.
Local Open Scope string_scope.

(** ** Exceptions *)

(** The exception classes the module raises or catches.  [DownloadError]
    and [UploadError] derive from [DvcException] (they are imported from
    [dvc.exceptions] next to it); [OSError] carries its [errno]. *)
Inductive exn : Type :=
  | OSError (errno : Z)
  | DvcException (msg : string)
  | DownloadError (amount : Z)
  | UploadError (amount : Z)
  | NotImplementedError
  | AssertionError
  | OtherError (name : string).

(** [except DvcException] catches the class and its subclasses. *)
Definition is_DvcException (e : exn) : bool :=
  match e with
  | DvcException _ | DownloadError _ | UploadError _ => true
  | _ => false
  end.

Inductive result (A : Type) : Type :=
  | Ok (a : A)
  | Fail (e : exn).
Arguments Ok {A} a.
Arguments Fail {A} e.

(** [errno] constants used by [protect]. *)
Definition EPERM : Z := 1.
Definition EACCES : Z := 13.
Definition EROFS : Z := 30.

(** ** Path infos *)

(** A [PathInfo]: its scheme and the components of the path. *)
Record path_info : Type := mkPathInfo {
  scheme : string;
  parts : list string
}.

(** [PathInfo(value)]: the class [PathInfo] has the scheme "local". *)
Definition PathInfo (ps : list string) : path_info :=
  {| scheme := "local"; parts := ps |}.

(** [info.parent] *)
Definition parent (p : path_info) : path_info :=
  {| scheme := scheme p; parts := removelast (parts p) |}.

(** [info.name] *)
Definition pname (p : path_info) : string := List.last (parts p) "".

(** [info / name] *)
Definition pjoin (p : path_info) (n : string) : path_info :=
  {| scheme := scheme p; parts := parts p ++ [n] |}.
Infix "//" := pjoin (at level 40, left associativity).

(** [info.with_name(name)] *)
Definition with_name (p : path_info) (n : string) : path_info :=
  parent p // n.

(** [str(info)] and [info.fspath] *)
Definition fspath (p : path_info) : string := String.concat "/" (parts p).

#[global] Instance path_info_eq_dec : EqDecision path_info.
Proof. solve_decision. Defined.

(** ** Link types *)

(** The strings "reflink", "hardlink", "symlink" and "copy". *)
Inductive link_type : Type :=
  lt_reflink | lt_hardlink | lt_symlink | lt_copy.

#[global] Instance link_type_eq_dec : EqDecision link_type.
Proof. solve_decision. Defined.

(** ** Calls to the outside *)

(** One constructor per function or method that [RemoteLOCAL] calls and
    that is defined outside [dvc/remote/local.py]. *)
Inductive call : Type :=
  (* os, os.path, stat *)
  | os_chmod (path : path_info) (mode : Z)
  | os_rename (src dst : path_info)
  | os_stat_st_mode (path : path_info)
  | os_path_exists (path : path_info)
  | os_path_isdir (path : path_info)
  | os_path_getsize (path : path_info)
  | open_w_close (path : path_info)
  (* dvc.system.System *)
  | System_copy (src dst : path_info)
  | System_symlink (src dst : path_info)
  | System_hardlink (src dst : path_info)
  | System_reflink (src dst : path_info)
  | System_is_symlink (path : path_info)
  | System_is_hardlink (path : path_info)
  (* dvc.utils, dvc.utils.fs, shortuuid *)
  | tmp_fname (name : string)
  | uuid
  | copyfile (src dst : path_info)
  | fs_remove (path : path_info)
  | fs_makedirs (path : path_info) (mode : Z)
  (* self.repo.tree, self.repo.state, dvc.scm.tree *)
  | tree_exists (path : path_info)
  | tree_walk_files (path : path_info)
  | is_working_tree
  | state_get (path : path_info)
  | state_save (path : path_info) (checksum : string)
  (* inherited from RemoteBASE *)
  | changed_cache_file (checksum : string)
  | get_dir_cache (checksum : string)
  | base_link (src dst : path_info) (link_types : list link_type)
  | base_verify_link (path : path_info) (lt : link_type)
  (* the remote cache *)
  | remote_cache_exists (md5s : list string) (jobs : option Z) (name : string)
  | remote_upload (src dst : path_info) (name : string)
  | remote_download (src dst : path_info) (name : string)
                    (dir_mode file_mode : Z)
  (* logging *)
  | logger_warning (msg : string).

(** The type of the value a call returns. *)
Definition ans (c : call) : Type :=
  match c with
  | os_stat_st_mode _ | os_path_getsize _ => Z
  | os_path_exists _ | os_path_isdir _ => bool
  | System_is_symlink _ | System_is_hardlink _ => bool
  | tmp_fname _ | uuid => string
  | tree_exists _ | is_working_tree | changed_cache_file _ => bool
  | tree_walk_files _ => list path_info
  | state_get _ => option string
  | get_dir_cache _ => list (string * string)
  | remote_cache_exists _ _ _ => list string
  | remote_upload _ _ _ | remote_download _ _ _ _ _ => Z
  | _ => unit
  end.

(** Calls that change the file system, the state index or the remote. *)
Definition mutates (c : call) : bool :=
  match c with
  | os_chmod _ _ | os_rename _ _ | open_w_close _
  | System_copy _ _ | System_symlink _ _ | System_hardlink _ _
  | System_reflink _ _ | copyfile _ _ | fs_remove _ | fs_makedirs _ _
  | state_save _ _ | base_link _ _ _
  | remote_upload _ _ _ | remote_download _ _ _ _ _ => true
  | _ => false
  end.

(** ** Programs *)

Inductive prog (A : Type) : Type :=
  | Ret (a : A)
  | Throw (e : exn)
  | Do (c : call) (k : result (ans c) -> prog A).
Arguments Ret {A} a.
Arguments Throw {A} e.
Arguments Do {A} c k.

Fixpoint bind {A B} (p : prog A) (f : A -> prog B) : prog B :=
  match p with
  | Ret a => f a
  | Throw e => Throw e
  | Do c k => Do c (fun r => bind (k r) f)
  end.

(** [try: p except (classes accepted by h): ...]; [h e = None] lets [e]
    propagate. *)
Fixpoint try_except {A} (p : prog A) (h : exn -> option (prog A)) : prog A :=
  match p with
  | Ret a => Ret a
  | Throw e => match h e with Some q => q | None => Throw e end
  | Do c k => Do c (fun r => try_except (k r) h)
  end.

(** A call whose exception, if any, propagates. *)
Definition perform (c : call) : prog (ans c) :=
  Do c (fun r => match r with Ok a => Ret a | Fail e => Throw e end).

#[global] Instance prog_ret : MRet prog := @Ret.
#[global] Instance prog_bind : MBind prog := fun A B f p => bind p f.

(** [assert b] *)
Definition assert (b : bool) : prog unit :=
  if b then Ret tt else Throw AssertionError.

(** [for x in l: body x] *)
Fixpoint for_each {A} (l : list A) (body : A -> prog unit) : prog unit :=
  match l with
  | [] => Ret tt
  | x :: l' => body x ;; for_each l' body
  end.

(** [[f x for x in l]], evaluated left to right *)
Fixpoint map_prog {A B} (f : A -> prog B) (l : list A) : prog (list B) :=
  match l with
  | [] => Ret []
  | x :: l' => y ← f x; ys ← map_prog f l'; Ret (y :: ys)
  end.

(** [[x for x in l if keep x]] *)
Fixpoint filter_prog {A} (keep : A -> prog bool) (l : list A)
  : prog (list A) :=
  match l with
  | [] => Ret []
  | x :: l' =>
      b ← keep x; xs ← filter_prog keep l';
      Ret (if b : bool then x :: xs else xs)
  end.

(** ** Environments and runs *)

(** An environment answers every call from its current state. *)
Record env : Type := mkEnv {
  St : Type;
  handle : forall c : call, St -> result (ans c) * St
}.

(** The outcome of a run: the result, the final state of the
    environment and the calls made, in order. *)
Record outcome (E : env) (A : Type) : Type := mkOutcome {
  res : result A;
  final : St E;
  trace : list call
}.
Arguments mkOutcome {E A} res final trace.
Arguments res {E A} o.
Arguments final {E A} o.
Arguments trace {E A} o.

Definition after {E A} (c : call) (o : outcome E A) : outcome E A :=
  mkOutcome (res o) (final o) (c :: trace o).

Fixpoint run (E : env) {A} (p : prog A) (s : St E) : outcome E A :=
  match p with
  | Ret a => mkOutcome (Ok a) s []
  | Throw e => mkOutcome (Fail e) s []
  | Do c k => let '(r, s') := handle E c s in after c (run E (k r) s')
  end.

(** Sequencing of outcomes: what [p ≫= f] does, given what [p] did. *)
Definition and_then {E : env} {A B} (o : outcome E A)
    (f : A -> St E -> outcome E B) : outcome E B :=
  match res o with
  | Ok a =>
      let o' := f a (final o) in
      mkOutcome (res o') (final o') (trace o ++ trace o')
  | Fail e => mkOutcome (Fail e) (final o) (trace o)
  end.

(** What [try_except p h] does, given what [p] did. *)
Definition or_else {E : env} {A} (o : outcome E A)
    (h : exn -> option (St E -> outcome E A)) : outcome E A :=
  match res o with
  | Ok a => o
  | Fail e =>
      match h e with
      | Some f =>
          let o' := f (final o) in
          mkOutcome (res o') (final o') (trace o ++ trace o')
      | None => o
      end
  end.

(** ** The instance and its remote *)

(** The attributes of [self] that the methods read.  [_file_mode] and
    [_dir_mode] are properties of [RemoteBASE]. *)
Record RemoteLOCAL : Type := mkRemoteLOCAL {
  cache_dir : list string;
  _file_mode : Z;
  _dir_mode : Z
}.

(** The [cache_dir] setter: [self.path_info = PathInfo(value)]. *)
Definition self_path_info (self : RemoteLOCAL) : path_info :=
  PathInfo (cache_dir self).

(** The attributes of the [remote] argument; its methods are calls. *)
Record remote_t : Type := mkRemote {
  remote_path_info : path_info;
  JOBS : Z;
  remote_checksum_to_path_info : string -> path_info
}.

(** [0o444] *)
Definition CACHE_MODE : Z := 292.
Definition UNPACKED_DIR_SUFFIX : string := ".unpacked".

(** Modelled from the spec: [checksum_to_path_info] of [RemoteBASE]
    (dvc/remote/base.py); section 4.2 gives the layout
    [<root>/<c[0:2]>/<c[2:]>]. *)
Definition checksum_to_path_info (self : RemoteLOCAL) (checksum : string)
  : path_info :=
  self_path_info self // substring 0 2 checksum
                     // substring 2 (String.length checksum - 2) checksum.

(** ** Status reconciliation *)

Inductive status_t : Type :=
  STATUS_OK | STATUS_MISSING | STATUS_NEW | STATUS_DELETED.

#[global] Instance status_t_eq_dec : EqDecision status_t.
Proof. solve_decision. Defined.

(** Modelled from the spec: [STATUS_MAP] of dvc/remote/base.py, keyed by
    [(local_exists, remote_exists)]; the table of section 4.7. *)
Definition STATUS_MAP (key : bool * bool) : status_t :=
  match key with
  | (false, false) => STATUS_MISSING
  | (true, false) => STATUS_NEW
  | (false, true) => STATUS_DELETED
  | (true, true) => STATUS_OK
  end.

(** The per-checksum dict [{"name": ..., "status": ...}]; the key
    "status" is absent until [_fill_statuses] sets it. *)
Record info : Type := mkInfo {
  info_name : string;
  info_status : option status_t
}.

Definition set_status (i : info) (s : status_t) : info :=
  {| info_name := info_name i; info_status := Some s |}.

Definition _fill_statuses (checksum_info_dir : gmap string info)
    (local_exists remote_exists : list string) : gmap string info :=
  let local : gset string := list_to_set local_exists in
  let remote : gset string := list_to_set remote_exists in
  map_imap (fun md5 info =>
      let status :=
        STATUS_MAP (bool_decide (md5 ∈ local), bool_decide (md5 ∈ remote)) in
      Some (set_status info status))
    checksum_info_dir.

(** [sorted(l)] on a list of strings. *)
Fixpoint insert_sorted (x : string) (l : list string) : list string :=
  match l with
  | [] => [x]
  | y :: l' => if String.leb x y then x :: l else y :: insert_sorted x l'
  end.

Definition sorted (l : list string) : list string := foldr insert_sorted [] l.

Definition nl : string := String (ascii_of_nat 10) EmptyString.

Definition _log_missing_caches (checksum_info_dict : gmap string info)
  : prog unit :=
  let missing_caches :=
    filter (fun x => info_status x.2 = Some STATUS_MISSING)
           (map_to_list checksum_info_dict) in
  match missing_caches with
  | [] => mret tt
  | _ =>
      let missing_desc :=
        String.concat ""
          (List.map (fun x => nl ++ "name: " ++ info_name x.2
                                 ++ ", md5: " ++ x.1) missing_caches) in
      let msg :=
        "Some of the cache files do not exist neither locally "
        ++ "nor on remote. Missing cache files: " ++ missing_desc in
      perform (logger_warning msg)
  end.

(** [cache_exists] of the local cache: the checksums whose cache file
    has not changed, in the order given. *)
Definition cache_exists (checksums : list string) : prog (list string) :=
  filter_prog (fun checksum =>
      changed ← perform (changed_cache_file checksum);
      mret (negb changed))
    checksums.

(** The dict comprehension of [status]:
    [{checksum: {"name": checksum if show_checksums else " ".join(names)}
      for checksum, names in named_cache[self.scheme].items()}]. *)
Definition named_infos (named_cache : gmap string (list string))
    (show_checksums : bool) : gmap string info :=
  map_imap (fun checksum names =>
      Some {| info_name :=
                if show_checksums then checksum
                else String.concat " " names;
              info_status := None |})
    named_cache.

(** [status]; [named_cache] is the dict [named_cache[self.scheme]].
    The [logger.debug] messages of the method are not calls of the
    model. *)
Definition status (named_cache : gmap string (list string))
    (remote : remote_t) (jobs : option Z) (show_checksums download : bool)
  : prog (gmap string info) :=
  let md5s := (map_to_list named_cache).*1 in
  local_exists ← cache_exists md5s;
  remote_exists ←
    (if download && bool_decide (sorted local_exists = sorted md5s)
     then mret local_exists
     else perform (remote_cache_exists md5s jobs
                     (fspath (remote_path_info remote))));
  let ret := named_infos named_cache show_checksums in
  let ret := _fill_statuses ret local_exists remote_exists in
  _log_missing_caches ret;;
  mret ret.

(** A named cache of four checksums, each with one name. *)
Definition four_named : gmap string (list string) :=
  {[ "c1" := ["a"]; "c2" := ["b"]; "c3" := ["c"]; "c4" := ["d"] ]}.

Definition four_infos : gmap string info := named_infos four_named false.

(** The status stored for a checksum, if any. *)
Definition status_of (d : gmap string info) (md5 : string)
  : option status_t :=
  d !! md5 ≫= info_status.


(** ** Transfers *)

(** The three parallel lists [(from_infos, to_infos, names)]. *)
Definition plans_t : Type := list path_info * list path_info * list string.

Definition _get_plans (self : RemoteLOCAL) (download : bool)
    (remote : remote_t) (status_info : gmap string info) (status : status_t)
  : plans_t :=
  let selected :=
    filter (fun x => info_status x.2 = Some status)
           (map_to_list status_info) in
  let cache := (fun x => checksum_to_path_info self x.1) <$> selected in
  let path_infos :=
    (fun x => remote_checksum_to_path_info remote x.1) <$> selected in
  let names := (fun x => info_name x.2) <$> selected in
  if download then (path_infos, cache, names)
  else (cache, path_infos, names).

(** [map(func, *plans)]: one call of [func] per triple, in plan order.
    [executor.map] hands out the same calls to the workers of a thread
    pool and yields their results in plan order as well; the order in
    which the workers of a pool make their calls is not fixed, and the
    model makes them in plan order. *)
Definition map_star (func : path_info -> path_info -> string -> prog Z)
    (plans : plans_t) : prog (list Z) :=
  map_prog (fun x => func x.1.1 x.1.2 x.2)
           (zip (zip plans.1.1 plans.1.2) plans.2).

(** [sum] of a list of integers *)
Definition sum (l : list Z) : Z := foldr Z.add 0 l.


(** The worker of [_process]: [remote.download] with the two modes
    fixed by [partial], or [remote.upload]. *)
Definition transfer_func (self : RemoteLOCAL) (download : bool)
    (from_info to_info : path_info) (name : string) : prog Z :=
  if download
  then perform (remote_download from_info to_info name
                  (_dir_mode self) (_file_mode self))
  else perform (remote_upload from_info to_info name).

(** [_process]; its [logger.debug] message is not a call of the model,
    and both branches on [jobs] run the workers through [map_star]. *)
Definition _process (self : RemoteLOCAL)
    (named_cache : gmap string (list string)) (remote : remote_t)
    (jobs : option Z) (show_checksums download : bool) : prog Z :=
  let func := transfer_func self download in
  let status_wanted := if download then STATUS_DELETED else STATUS_NEW in
  let jobs := match jobs with None => JOBS remote | Some j => j end in
  status_info ←
    status named_cache remote (Some jobs) show_checksums download;
  let plans := _get_plans self download remote status_info status_wanted in
  if bool_decide (length plans.1.1 = 0%nat) then mret 0
  else
    fails ←
      (if bool_decide (jobs > 1)
       then results ← map_star func plans; mret (sum results)
       else results ← map_star func plans; mret (sum results));
    if bool_decide (fails ≠ 0)
    then Throw (if download then DownloadError fails else UploadError fails)
    else mret (Z.of_nat (length plans.1.1)).


Definition pull (self : RemoteLOCAL)
    (named_cache : gmap string (list string)) (remote : remote_t)
    (jobs : option Z) (show_checksums : bool) : prog Z :=
  _process self named_cache remote jobs show_checksums true.

(** ** Properties of call sequences *)

(** Every call a program can make, whatever the answers, satisfies [P]. *)
Fixpoint all_calls {A} (P : call -> Prop) (p : prog A) : Prop :=
  match p with
  | Ret _ | Throw _ => True
  | Do c k => P c /\ forall r, all_calls P (k r)
  end.

(** A link request names the list [["hardlink", "symlink"]]. *)
Definition links_hard_then_sym (c : call) : Prop :=
  match c with
  | base_link _ _ link_types => link_types = [lt_hardlink; lt_symlink]
  | _ => True
  end.


(** ** A scripted environment for examples *)

(** The answer of a call that nothing is known about. *)
Definition default_ans (c : call) : ans c :=
  match c return ans c with
  | os_stat_st_mode _ | os_path_getsize _ => 0
  | os_path_exists _ | os_path_isdir _ => false
  | System_is_symlink _ | System_is_hardlink _ => false
  | tmp_fname n => n ++ ".tmp"
  | uuid => "uuid"
  | tree_exists _ | changed_cache_file _ => false
  | is_working_tree => true
  | tree_walk_files _ => []
  | state_get _ => None
  | get_dir_cache _ => []
  | remote_cache_exists _ _ _ => []
  | remote_upload _ _ _ | remote_download _ _ _ _ _ => 0
  | _ => tt
  end.

(** A stateless environment: [local] and [remote] are the checksums
    present in the local and in the remote cache, [failing] the names of
    the objects whose transfer fails. *)
Definition scripted (local remote failing : list string) : env :=
  {| St := unit;
     handle := fun c s =>
       (match c return result (ans c) with
        | changed_cache_file checksum =>
            Ok (negb (bool_decide (checksum ∈ local)))
        | remote_cache_exists md5s _ _ =>
            Ok (filter (fun x => x ∈ remote) md5s)
        | remote_upload _ _ name | remote_download _ _ name _ _ =>
            Ok (if bool_decide (name ∈ failing) then 1 else 0)
        | c => Ok (default_ans c)
        end, s) |}.

Definition a_cache : RemoteLOCAL :=
  {| cache_dir := ["repo"; ".dvc"; "cache"];
     _file_mode := 420; _dir_mode := 493 |}.

Definition a_remote : remote_t :=
  {| remote_path_info := PathInfo ["mnt"; "storage"];
     JOBS := 4;
     remote_checksum_to_path_info := fun c =>
       PathInfo ["mnt"; "storage"] // substring 0 2 c
         // substring 2 (String.length c - 2) c |}.

(** Five named checksums, with the names f1 to f5. *)
Definition five_named : gmap string (list string) :=
  {[ "aa01" := ["f1"]; "aa02" := ["f2"]; "aa03" := ["f3"];
     "aa04" := ["f4"]; "aa05" := ["f5"] ]}.

Definition five_md5s : list string := (map_to_list five_named).*1.

(** ** Files of the local cache *)

(** [self.exists] *)
Definition exists_ (path_info : path_info) : prog bool :=
  assert (bool_decide (scheme path_info = "local"));;
  perform (tree_exists path_info).

(** [self.makedirs]; [exist_ok=True] is left to [fs_makedirs]. *)
Definition makedirs (self : RemoteLOCAL) (path_info : path_info)
  : prog unit :=
  perform (fs_makedirs path_info (_dir_mode self)).

Definition getsize (path_info : path_info) : prog Z :=
  perform (os_path_getsize path_info).

Definition remove (path_info : path_info) : prog unit :=
  if bool_decide (scheme path_info ≠ "local") then Throw NotImplementedError
  else
    present ← exists_ path_info;
    if present : bool then perform (fs_remove path_info) else mret tt.

(** ** The four link methods *)

Definition copy (self : RemoteLOCAL) (from_info to_info : path_info)
  : prog unit :=
  tmp_name ← perform (tmp_fname (pname to_info));
  let tmp_info := parent to_info // tmp_name in
  try_except
    (perform (System_copy from_info tmp_info);;
     perform (os_chmod tmp_info (_file_mode self));;
     perform (os_rename tmp_info to_info))
    (fun e => Some (remove tmp_info;; Throw e)).

Definition symlink (from_info to_info : path_info) : prog unit :=
  perform (System_symlink from_info to_info).

Definition hardlink (from_info to_info : path_info) : prog unit :=
  size ← getsize from_info;
  if bool_decide (size = 0)
  then perform (open_w_close to_info)
  else perform (System_hardlink from_info to_info).

Definition reflink (self : RemoteLOCAL) (from_info to_info : path_info)
  : prog unit :=
  tmp_name ← perform (tmp_fname (pname to_info));
  let tmp_info := parent to_info // tmp_name in
  perform (System_reflink from_info tmp_info);;
  perform (os_chmod tmp_info (_file_mode self));;
  perform (os_rename tmp_info to_info).

(** [getattr(self, link_type)]: the method named by a link type. *)
Definition link_method (self : RemoteLOCAL) (lt : link_type)
  : path_info -> path_info -> prog unit :=
  match lt with
  | lt_reflink => reflink self
  | lt_hardlink => hardlink
  | lt_symlink => symlink
  | lt_copy => copy self
  end.

(** [_verify_link]; [super()._verify_link] is [base_verify_link].  The
    size is asked only for a hardlink ([and] is short-circuit). *)
Definition _verify_link (path_info : path_info) (lt : link_type)
  : prog unit :=
  skip ←
    (if bool_decide (lt = lt_hardlink)
     then size ← getsize path_info; mret (bool_decide (size = 0))
     else mret false);
  if skip : bool then mret tt
  else perform (base_verify_link path_info lt).

(** Modelled from the spec: the caller of the link methods in
    [RemoteBASE] (dvc/remote/base.py); by section 4.3 a materialization
    with one link type is followed by the verification of its result,
    the destination. *)
Definition link_then_verify (self : RemoteLOCAL) (lt : link_type)
    (from_info to_info : path_info) : prog unit :=
  link_method self lt from_info to_info;;
  _verify_link to_info lt.

(** ** Protection *)

(** [stat.S_IMODE]: the low twelve bits, [mode & 0o7777]. *)
Definition S_IMODE (mode : Z) : Z := Z.land mode 4095.

Definition protect (path_info : path_info) : prog unit :=
  let path := path_info in
  let mode := CACHE_MODE in
  try_except (perform (os_chmod path mode))
    (fun exc =>
       match exc with
       | OSError errno =>
           Some
             (if bool_decide (errno = EROFS) then mret tt
              else if bool_decide (errno ∉ [EPERM; EACCES]) then Throw exc
              else
                st_mode ← perform (os_stat_st_mode path);
                let actual := S_IMODE st_mode in
                if bool_decide (actual ≠ mode) then Throw exc else mret tt)
       | _ => None
       end).

(** [System.is_symlink(path) or System.is_hardlink(path)] *)
Definition symlink_or_hardlink (path : path_info) : prog bool :=
  is_sym ← perform (System_is_symlink path);
  if is_sym : bool then mret true else perform (System_is_hardlink path).

Definition _unprotect_file (self : RemoteLOCAL) (path : path_info)
  : prog unit :=
  linked ← symlink_or_hardlink path;
  (if linked : bool then
     u ← perform uuid;
     let tmp := parent path // ("." ++ u) in
     perform (copyfile path tmp);;
     perform (fs_remove path);;
     perform (os_rename tmp path)
   else mret tt);;
  perform (os_chmod path (_file_mode self)).

Definition _unprotect_dir (self : RemoteLOCAL) (path : path_info)
  : prog unit :=
  working ← perform is_working_tree;
  assert working;;
  fnames ← perform (tree_walk_files path);
  for_each fnames (_unprotect_file self).

Definition unprotect (self : RemoteLOCAL) (path_info : path_info)
  : prog unit :=
  let path := path_info in
  present ← perform (os_path_exists path);
  if negb present then
    Throw (DvcException
             ("can't unprotect non-existing data '" ++ fspath path ++ "'"))
  else
    isdir ← perform (os_path_isdir path);
    if isdir : bool then _unprotect_dir self path
    else _unprotect_file self path.

(** ** The unpacked directory of a directory checksum *)

Definition _get_unpacked_dir_path_info (self : RemoteLOCAL)
    (checksum : string) : path_info :=
  let info := checksum_to_path_info self checksum in
  with_name info (pname info ++ UNPACKED_DIR_SUFFIX).

Definition _remove_unpacked_dir (self : RemoteLOCAL) (checksum : string)
  : prog unit :=
  remove (_get_unpacked_dir_path_info self checksum).

(** The truth value of what [state.get] returns. *)
Definition truthy (v : option string) : bool :=
  match v with
  | Some s => negb (bool_decide (s = ""))
  | None => false
  end.

Definition _path_info_changed (path_info : path_info) : prog bool :=
  present ← exists_ path_info;
  known ←
    (if present : bool
     then v ← perform (state_get path_info); mret (truthy v)
     else mret false);
  if known : bool then mret false else mret true.

(** An entry of a directory manifest is the pair of its [md5] and its
    [relpath]. *)
Definition _create_unpacked_dir (self : RemoteLOCAL) (checksum : string)
    (dir_info : list (string * string)) (unpacked_dir_info : path_info)
  : prog unit :=
  makedirs self unpacked_dir_info;;
  for_each dir_info (fun entry =>
    let entry_cache_info := checksum_to_path_info self entry.1 in
    let relative_path := entry.2 in
    let link_types := [lt_hardlink; lt_symlink] in
    perform (base_link entry_cache_info
               (unpacked_dir_info // relative_path) link_types));;
  perform (state_save unpacked_dir_info checksum).

(** The body of the [try] of [_update_unpacked_dir]. *)
Definition rebuild_unpacked_dir (self : RemoteLOCAL) (checksum : string)
    (unpacked_dir_info : path_info) : prog unit :=
  dir_info ← perform (get_dir_cache checksum);
  _create_unpacked_dir self checksum dir_info unpacked_dir_info.

Definition _update_unpacked_dir (self : RemoteLOCAL) (checksum : string)
  : prog unit :=
  let unpacked_dir_info := _get_unpacked_dir_path_info self checksum in
  changed ← _path_info_changed unpacked_dir_info;
  if negb changed then mret tt
  else
    remove unpacked_dir_info;;
    try_except (rebuild_unpacked_dir self checksum unpacked_dir_info)
      (fun e =>
         if is_DvcException e then
           Some
             (perform (logger_warning
                         ("Could not create '" ++ fspath unpacked_dir_info
                          ++ "'"));;
              remove unpacked_dir_info)
         else None).

(** An environment in which [chmod] is refused with [errno] and [stat]
    reports [st_mode]. *)
Definition chmod_refused (errno st_mode : Z) : env :=
  {| St := unit;
     handle := fun c s =>
       (match c return result (ans c) with
        | os_chmod _ _ => Fail (OSError errno)
        | os_stat_st_mode _ => Ok st_mode
        | c => Ok (default_ans c)
        end, s) |}.

(** ** A model of the host file system *)

(** The environment behind the calls of [os], [System] and
    [dvc.utils.fs], as far as the link methods observe it: names point
    to inodes, to symlink targets or are directories; an inode carries
    the size and the mode of a file. *)
Record inode_t : Type := mkInode { i_size : Z; i_mode : Z }.

Inductive dentry : Type :=
  | d_file (ino : nat)
  | d_symlink (target : list string)
  | d_dir.

#[global] Instance dentry_eq_dec : EqDecision dentry.
Proof. solve_decision. Defined.

Record fs_t : Type := mkFs {
  dentries : gmap (list string) dentry;
  inodes : gmap nat inode_t
}.

Definition ENOENT : Z := 2.
Definition EEXIST : Z := 17.
Definition EISDIR : Z := 21.

(** The name a path leads to, following symlinks. *)
Fixpoint resolve (fuel : nat) (fs : fs_t) (p : list string)
  : option (list string * dentry) :=
  match dentries fs !! p with
  | Some (d_symlink t) =>
      match fuel with
      | O => None
      | S fuel' => resolve fuel' fs t
      end
  | Some d => Some (p, d)
  | None => None
  end.

Definition lookup_path (fs : fs_t) (p : path_info)
  : option (list string * dentry) :=
  resolve 40 fs (parts p).

(** [st_nlink]: the number of names of an inode. *)
Definition nlink (fs : fs_t) (i : nat) : nat :=
  length (filter (fun kv => kv.2 = d_file i) (map_to_list (dentries fs))).

(** An inode number that is not in use. *)
Definition fresh_ino (fs : fs_t) : nat := fresh (dom (inodes fs)).

(** A new file of the given size at [p], with mode [0o644]. *)
Definition create_file (fs : fs_t) (p : list string) (size : Z) : fs_t :=
  let j := fresh_ino fs in
  {| dentries := <[p := d_file j]> (dentries fs);
     inodes := <[j := mkInode size 420]> (inodes fs) |}.

Definition set_size (fs : fs_t) (i : nat) (size : Z) : fs_t :=
  {| dentries := dentries fs;
     inodes := alter (fun n => mkInode size (i_mode n)) i (inodes fs) |}.

Definition set_mode (fs : fs_t) (i : nat) (mode : Z) : fs_t :=
  {| dentries := dentries fs;
     inodes := alter (fun n => mkInode (i_size n) mode) i (inodes fs) |}.

(** The names at or below [p] are dropped. *)
Definition remove_tree (fs : fs_t) (p : list string) : fs_t :=
  {| dentries := filter (fun kv => ~ p `prefix_of` kv.1) (dentries fs);
     inodes := inodes fs |}.

(** Writes [size] bytes to [dst]: into the file it leads to, or into a
    new file. *)
Definition write_file (fs : fs_t) (dst : path_info) (size : Z)
  : result unit * fs_t :=
  match lookup_path fs dst with
  | Some (_, d_file k) => (Ok tt, set_size fs k size)
  | Some (_, d_dir) => (Fail (OSError EISDIR), fs)
  | _ =>
      match dentries fs !! parts dst with
      | None => (Ok tt, create_file fs (parts dst) size)
      | Some _ => (Fail (OSError ENOENT), fs)
      end
  end.

Definition copy_file (fs : fs_t) (src dst : path_info)
  : result unit * fs_t :=
  match lookup_path fs src with
  | Some (_, d_file i) =>
      match inodes fs !! i with
      | Some n => write_file fs dst (i_size n)
      | None => (Fail (OSError ENOENT), fs)
      end
  | Some (_, d_dir) => (Fail (OSError EISDIR), fs)
  | _ => (Fail (OSError ENOENT), fs)
  end.

Definition add_name (fs : fs_t) (dst : path_info) (d : dentry)
  : result unit * fs_t :=
  match dentries fs !! parts dst with
  | Some _ => (Fail (OSError EEXIST), fs)
  | None =>
      (Ok tt, {| dentries := <[parts dst := d]> (dentries fs);
                 inodes := inodes fs |})
  end.

Definition is_hardlinked (fs : fs_t) (p : path_info) : result bool :=
  match dentries fs !! parts p with
  | Some (d_file i) => Ok (bool_decide (1 < nlink fs i)%nat)
  | Some _ => Ok false
  | None => Fail (OSError ENOENT)
  end.

Definition is_symlinked (fs : fs_t) (p : path_info) : bool :=
  match dentries fs !! parts p with
  | Some (d_symlink _) => true
  | _ => false
  end.

(** The answers of the model.  The calls of [os], [System] and
    [dvc.utils.fs] act on the names and inodes; [uuid], [tmp_fname], the
    state index, the logger and the remote get the default answers.
    Modelled from the spec: [_verify_link] of [RemoteBASE]
    (dvc/remote/base.py) behind [base_verify_link]; by section 4.3 the
    result of a hardlink must share its inode with the source, which is
    what [System.is_hardlink] observes through the link count. *)
Definition posix_handle (c : call) (fs : fs_t) : result (ans c) * fs_t :=
  match c return result (ans c) * fs_t with
  | os_path_exists p | tree_exists p =>
      (Ok (bool_decide (is_Some (lookup_path fs p))), fs)
  | os_path_isdir p =>
      (Ok (match lookup_path fs p with
           | Some (_, d_dir) => true
           | _ => false
           end), fs)
  | os_path_getsize p =>
      (match lookup_path fs p with
       | Some (_, d_file i) =>
           match inodes fs !! i with
           | Some n => Ok (i_size n)
           | None => Fail (OSError ENOENT)
           end
       | Some (_, d_dir) => Ok 4096
       | _ => Fail (OSError ENOENT)
       end, fs)
  | os_stat_st_mode p =>
      (match lookup_path fs p with
       | Some (_, d_file i) =>
           match inodes fs !! i with
           | Some n => Ok (32768 + i_mode n)
           | None => Fail (OSError ENOENT)
           end
       | Some (_, d_dir) => Ok 16877
       | _ => Fail (OSError ENOENT)
       end, fs)
  | os_chmod p mode =>
      match lookup_path fs p with
      | Some (_, d_file i) => (Ok tt, set_mode fs i mode)
      | Some (_, d_dir) => (Ok tt, fs)
      | _ => (Fail (OSError ENOENT), fs)
      end
  | open_w_close p => write_file fs p 0
  | System_copy src dst | copyfile src dst | System_reflink src dst =>
      copy_file fs src dst
  | System_hardlink src dst =>
      match dentries fs !! parts src with
      | Some (d_file i) => add_name fs dst (d_file i)
      | Some (d_symlink t) => add_name fs dst (d_symlink t)
      | Some d_dir => (Fail (OSError EPERM), fs)
      | None => (Fail (OSError ENOENT), fs)
      end
  | System_symlink src dst => add_name fs dst (d_symlink (parts src))
  | os_rename src dst =>
      match dentries fs !! parts src with
      | Some d_dir => (Fail (OSError EISDIR), fs)
      | Some d =>
          (Ok tt, {| dentries :=
                       <[parts dst := d]> (delete (parts src) (dentries fs));
                     inodes := inodes fs |})
      | None => (Fail (OSError ENOENT), fs)
      end
  | fs_remove p => (Ok tt, remove_tree fs (parts p))
  | fs_makedirs p _ =>
      match dentries fs !! parts p with
      | None | Some d_dir =>
          (Ok tt, {| dentries := <[parts p := d_dir]> (dentries fs);
                     inodes := inodes fs |})
      | Some _ => (Fail (OSError EEXIST), fs)
      end
  | System_is_symlink p => (Ok (is_symlinked fs p), fs)
  | System_is_hardlink p => (is_hardlinked fs p, fs)
  | tree_walk_files p =>
      (Ok (PathInfo <$>
             (filter (fun kv => parts p `prefix_of` kv.1 /\ kv.2 <> d_dir)
                     (map_to_list (dentries fs))).*1), fs)
  | base_verify_link p lt =>
      (match lt with
       | lt_hardlink =>
           match is_hardlinked fs p with
           | Ok true => Ok tt
           | Ok false => Fail (DvcException "failed to verify hardlink")
           | Fail e => Fail e
           end
       | lt_symlink =>
           if is_symlinked fs p then Ok tt
           else Fail (DvcException "failed to verify symlink")
       | _ => Ok tt
       end, fs)
  | c => (Ok (default_ans c), fs)
  end.

Definition posix : env := {| St := fs_t; handle := posix_handle |}.

(** A cache with an empty object and an object of six bytes, and a
    workspace where [data/foo] is a symlink to the second. *)
Definition small_fs : fs_t :=
  {| dentries :=
       {[ ["cache"; "d4"; "1d"] := d_file 1;
          ["cache"; "b1"; "94"] := d_file 2;
          ["data"] := d_dir;
          ["data"; "foo"] := d_symlink ["cache"; "b1"; "94"] ]};
     inodes := {[ 1%nat := mkInode 0 292; 2%nat := mkInode 6 292 ]} |}.

(** An environment in which the unpacked directory exists, the manifest
    has one entry and no link can be made. *)
Definition broken_links : env :=
  {| St := unit;
     handle := fun c s =>
       (match c return result (ans c) with
        | tree_exists _ => Ok true
        | get_dir_cache _ => Ok [("aa01", "x")]
        | base_link _ _ _ => Fail (DvcException "no possible cache types left")
        | c => Ok (default_ans c)
        end, s) |}.

(** ** Further methods of the local cache *)

(** [is_protected] *)
Definition is_protected (path_info : path_info) : prog bool :=
  present ← exists_ path_info;
  if negb present then mret false
  else
    mode ← perform (os_stat_st_mode path_info);
    mret (bool_decide (S_IMODE mode = CACHE_MODE)).

(** [iscopy] *)
Definition iscopy (path_info : path_info) : prog bool :=
  linked ← symlink_or_hardlink path_info;
  mret (negb linked).

(** [walk_files]: the generator is run to its end; each name the tree
    yields is wrapped in a [PathInfo]. *)
Definition walk_files (info : path_info) : prog (list path_info) :=
  working ← perform is_working_tree;
  assert working;;
  fnames ← perform (tree_walk_files info);
  mret (List.map (fun fname => PathInfo (parts fname)) fnames).

(** ** Environments with chosen answers *)

(** A stateless environment that answers a call as [f] says and gives
    the default answer where [f] says nothing. *)
Definition answering (f : forall c : call, option (result (ans c))) : env :=
  {| St := unit;
     handle := fun c s =>
       (match f c with Some r => r | None => Ok (default_ans c) end, s) |}.

(** ** Kinds of calls *)

(** The presence query to the remote cache. *)
Definition asks_remote (c : call) : bool :=
  match c with
  | remote_cache_exists _ _ _ => true
  | _ => false
  end.

(** [logger.warning] *)
Definition is_warning (c : call) : bool :=
  match c with
  | logger_warning _ => true
  | _ => false
  end.

(** An environment in which the cache file of the checksum [bad] cannot
    be examined: the query raises [e]. *)
Definition unreadable (bad : string) (e : exn) : env :=
  answering (fun c =>
    match c return option (result (ans c)) with
    | changed_cache_file md5 =>
        if bool_decide (md5 = bad) then Some (Fail e) else None
    | _ => None
    end).

(** ** The logging configuration of [dvc/logger.py] *)

(** The numeric levels of [logging]. *)
Definition DEBUG : Z := 10.
Definition INFO : Z := 20.
Definition WARNING : Z := 30.

(** What the methods read of a log record: [exc_info] holds, when set,
    [str] of the exception and of each of its causes
    ([exc.__cause__]), outermost first. *)
Record log_record : Type := mkRecord {
  levelname : string;
  levelno : Z;
  exc_info : option (list string);
  tb_only : bool
}.

(** [ExcludeErrorsFilter.filter] *)
Definition ExcludeErrorsFilter (record : log_record) : bool :=
  (levelno record <? WARNING)%Z.

(** [ExcludeInfoFilter.filter] *)
Definition ExcludeInfoFilter (record : log_record) : bool :=
  (levelno record <? INFO)%Z.

Inductive stream : Type := stdout | stderr.

(** An entry of "handlers" in the dict of [setup]. *)
Record handler : Type := mkHandler {
  h_level : Z;
  h_stream : stream;
  h_filters : list (log_record -> bool)
}.

Definition console_info : handler :=
  {| h_level := INFO; h_stream := stdout;
     h_filters := [ExcludeErrorsFilter] |}.

Definition console_debug : handler :=
  {| h_level := DEBUG; h_stream := stdout;
     h_filters := [ExcludeInfoFilter] |}.

Definition console_errors : handler :=
  {| h_level := WARNING; h_stream := stderr; h_filters := [] |}.

(** The handlers of the logger "dvc", in the order of the dict. *)
Definition dvc_handlers : list handler :=
  [console_info; console_debug; console_errors].

(** [logging] hands a record to a handler when the record's level is
    at least the handler's and all the handler's filters accept it. *)
Definition handles (h : handler) (record : log_record) : bool :=
  (h_level h <=? levelno record)%Z
  && forallb (fun f => f record) (h_filters h).

(** The colours of [colorama.Fore] that the formatter uses. *)
Record Fore_t : Type := mkFore {
  BLUE : string; GREEN : string; RED : string; YELLOW : string;
  RESET : string
}.

(** [ColorFormatter.color_code]; [None] stands for a missing key. *)
Definition color_code (Fore : Fore_t) (name : string) : option string :=
  if bool_decide (name = "DEBUG") then Some (BLUE Fore)
  else if bool_decide (name = "WARNING") then Some (YELLOW Fore)
  else if bool_decide (name = "ERROR") then Some (RED Fore)
  else if bool_decide (name = "CRITICAL") then Some (RED Fore)
  else None.

(** [ColorFormatter.formatTime]; [verbose] is [_is_verbose()] and
    [date] what [logging.Formatter.formatTime] returns. *)
Definition formatTime (Fore : Fore_t) (verbose : bool) (date : string)
    (record : log_record) : string :=
  if negb verbose || bool_decide (levelno record = INFO) then ""
  else GREEN Fore ++ date ++ RESET Fore ++ " ".

(** [ColorFormatter.format]; [message] is what [formatMessage] returns
    and [stack] what [_stack_trace] returns.  A level name without a
    colour raises [KeyError]. *)
Definition format (Fore : Fore_t) (verbose : bool) (date stack : string)
    (record : log_record) (message : string) : result string :=
  let msg := message in
  if bool_decide (levelname record = "INFO") then Ok msg
  else
    let msg :=
      match exc_info record with
      | Some causes =>
          let cause :=
            if tb_only record then "" else String.concat ": " causes in
          let separator :=
            if negb (bool_decide (msg = "")) && negb (bool_decide (cause = ""))
            then " - " else "" in
          let msg := msg ++ separator ++ cause in
          if verbose then msg ++ stack else msg
      | None => msg
      end in
    let asctime := formatTime Fore verbose date record in
    match color_code Fore (levelname record) with
    | None => Fail (OtherError "KeyError")
    | Some color =>
        Ok (asctime ++ color ++ levelname record ++ RESET Fore ++ ": "
            ++ msg)
    end.

(** ** The file procedure of [unprotect], call by call *)

(** The temporary name beside [f]: [.<u>] in the directory of [f]. *)
Definition tmp_beside (f : path_info) (u : string) : path_info :=
  parent f // ("." ++ u).

(** [link_test E f b s s' t]: from the state [s], the environment is
    asked whether [f] is a symlink and, if it is not, whether it is a
    hardlink; [b] tells whether one of the answers was yes. *)
Inductive link_test (E : env) (f : path_info)
  : bool -> St E -> St E -> list call -> Prop :=
  | test_symlink (s s1 : St E) :
      handle E (System_is_symlink f) s = (Ok true, s1) ->
      link_test E f true s s1 [System_is_symlink f]
  | test_hardlink (s s1 s2 : St E) (b : bool) :
      handle E (System_is_symlink f) s = (Ok false, s1) ->
      handle E (System_is_hardlink f) s1 = (Ok b, s2) ->
      link_test E f b s s2 [System_is_symlink f; System_is_hardlink f].

(** [file_unprotected E self f s s' t]: from the state [s], the file
    procedure is carried out on [f] with every call succeeding, the
    calls being [t] and the state afterwards [s']: a symlink or
    hardlink is copied to a temporary name beside it, removed, and the
    copy renamed to it; then, as for any other file, its mode is set to
    the file mode. *)
Inductive file_unprotected (E : env) (self : RemoteLOCAL) (f : path_info)
  : St E -> St E -> list call -> Prop :=
  | unprotected_link (s s1 s2 s3 s4 s5 s6 : St E) (tq : list call)
      (u : string) :
      link_test E f true s s1 tq ->
      handle E uuid s1 = (Ok u, s2) ->
      handle E (copyfile f (tmp_beside f u)) s2 = (Ok tt, s3) ->
      handle E (fs_remove f) s3 = (Ok tt, s4) ->
      handle E (os_rename (tmp_beside f u) f) s4 = (Ok tt, s5) ->
      handle E (os_chmod f (_file_mode self)) s5 = (Ok tt, s6) ->
      file_unprotected E self f s s6
        (tq ++ [uuid; copyfile f (tmp_beside f u); fs_remove f;
                os_rename (tmp_beside f u) f;
                os_chmod f (_file_mode self)])%list
  | unprotected_plain (s s1 s2 : St E) (tq : list call) :
      link_test E f false s s1 tq ->
      handle E (os_chmod f (_file_mode self)) s1 = (Ok tt, s2) ->
      file_unprotected E self f s s2
        (tq ++ [os_chmod f (_file_mode self)])%list.

(** The file procedure carried out on each file of a list, in order. *)
Inductive each_unprotected (E : env) (self : RemoteLOCAL)
  : list path_info -> St E -> St E -> list call -> Prop :=
  | each_unprotected_nil (s : St E) : each_unprotected E self [] s s []
  | each_unprotected_cons (f : path_info) (l : list path_info)
      (s s1 s2 : St E) (t1 t2 : list call) :
      file_unprotected E self f s s1 t1 ->
      each_unprotected E self l s1 s2 t2 ->
      each_unprotected E self (f :: l) s s2 (t1 ++ t2)%list.

(** ** The links of an unpacked directory, call by call *)

(** The link request of [_create_unpacked_dir] for a manifest entry. *)
Definition entry_link (self : RemoteLOCAL) (unpacked_dir_info : path_info)
    (entry : string * string) : call :=
  base_link (checksum_to_path_info self entry.1)
    (unpacked_dir_info // entry.2) [lt_hardlink; lt_symlink].

(** [all_linked E self u l s s']: from the state [s], the link request
    of every entry of [l] is made in order and succeeds, leaving the
    state [s']. *)
Inductive all_linked (E : env) (self : RemoteLOCAL) (u : path_info)
  : list (string * string) -> St E -> St E -> Prop :=
  | all_linked_nil (s : St E) : all_linked E self u [] s s
  | all_linked_cons (entry : string * string) (l : list (string * string))
      (s s1 s2 : St E) :
      handle E (entry_link self u entry) s = (Ok tt, s1) ->
      all_linked E self u l s1 s2 ->
      all_linked E self u (entry :: l) s s2.

(** A workspace directory with a symlink into the cache and a file of
    its own. *)
Definition tree_fs : fs_t :=
  {| dentries :=
       {[ ["cache"; "b1"; "94"] := d_file 2;
          ["data"] := d_dir;
          ["data"; "a"] := d_symlink ["cache"; "b1"; "94"];
          ["data"; "b"] := d_file 3 ]};
     inodes := {[ 2%nat := mkInode 6 292; 3%nat := mkInode 4 292 ]} |}.
(** * Theorems *)

(** ** Runs of composed programs *)

Section RunLemmas.
Context {E : env}.

Lemma run_bind {A B} (p : prog A) (f : A -> prog B) (s : St E) :
  run E (p ≫= f) s = and_then (run E p s) (fun a s' => run E (f a) s').
Proof.
  revert s. induction p as [a|e|c k IH]; intros s.
  - unfold and_then. simpl. by destruct (run E (f a) s).
  - reflexivity.
  - change (run E (Do c k ≫= f) s)
      with (let '(r, s') := handle E c s in
            after c (run E (k r ≫= f) s')).
    simpl. destruct (handle E c s) as [r s']. rewrite IH.
    destruct (run E (k r) s') as [[a|e] s'' tr]; done.
Qed.

Lemma run_try_except {A} (p : prog A) (h : exn -> option (prog A))
    (s : St E) :
  run E (try_except p h) s =
  or_else (run E p s) (fun e => (fun q s' => run E q s') <$> h e).
Proof.
  revert s. induction p as [a|e|c k IH]; intros s.
  - reflexivity.
  - unfold or_else. simpl. destruct (h e) as [q|]; simpl; [|done].
    by destruct (run E q s).
  - simpl. destruct (handle E c s) as [r s']. rewrite IH.
    destruct (run E (k r) s') as [[a|e] s'' tr]; [done|].
    unfold or_else, after. simpl. by destruct (h e).
Qed.

Lemma run_perform (c : call) (s : St E) :
  run E (perform c) s =
  mkOutcome (handle E c s).1 (handle E c s).2 [c].
Proof.
  unfold perform. simpl. destruct (handle E c s) as [[a|e] s']; done.
Qed.

Lemma run_ret {A} (a : A) (s : St E) : run E (mret a) s = mkOutcome (Ok a) s [].
Proof. reflexivity. Qed.
End RunLemmas.

(** ** Properties of the status reconciler *)

Lemma lookup_fill_statuses infos L R c :
  _fill_statuses infos L R !! c =
  (fun i => set_status i (STATUS_MAP (bool_decide (c ∈ L), bool_decide (c ∈ R))))
    <$> infos !! c.
Proof.
  unfold _fill_statuses. rewrite map_lookup_imap.
  destruct (infos !! c) as [i|]; simpl; [|done].
  rewrite (bool_decide_ext (c ∈ (list_to_set L : gset string)) (c ∈ L))
    by set_solver.
  rewrite (bool_decide_ext (c ∈ (list_to_set R : gset string)) (c ∈ R))
    by set_solver.
  done.
Qed.

Lemma status_of_fill_statuses infos L R c i :
  infos !! c = Some i ->
  status_of (_fill_statuses infos L R) c =
  Some (STATUS_MAP (bool_decide (c ∈ L), bool_decide (c ∈ R))).
Proof.
  intros Hc. unfold status_of. by rewrite lookup_fill_statuses, Hc.
Qed.

(** C1: for every dict of named checksums and every pair of presence
    lists, [_fill_statuses] keeps the keys and names and gives each key
    the status of the fixed table on (in local, in remote):
    (F,F) MISSING, (T,F) NEW, (F,T) DELETED, (T,T) OK; the entry of a
    key is a function of the entry before, of its membership in the
    local list and of its membership in the remote list alone.  On
    N = {c1,c2,c3,c4}, L = {c1,c2}, R = {c2,c3} the statuses are
    c1 NEW, c2 OK, c3 DELETED, c4 MISSING, and [status] returns this
    dict when the local cache holds L and the remote cache holds R. *)
Theorem fill_statuses_table :
  (forall (infos : gmap string info) (L R : list string) (c : string),
      _fill_statuses infos L R !! c =
      (fun i =>
         {| info_name := info_name i;
            info_status :=
              Some (match bool_decide (c ∈ L), bool_decide (c ∈ R) with
                    | false, false => STATUS_MISSING
                    | true, false => STATUS_NEW
                    | false, true => STATUS_DELETED
                    | true, true => STATUS_OK
                    end) |}) <$> infos !! c)
  /\ (forall (infos : gmap string info) (L R : list string),
         dom (_fill_statuses infos L R) = dom infos)
  /\ status_of (_fill_statuses four_infos ["c1"; "c2"] ["c2"; "c3"]) "c1"
       = Some STATUS_NEW
  /\ status_of (_fill_statuses four_infos ["c1"; "c2"] ["c2"; "c3"]) "c2"
       = Some STATUS_OK
  /\ status_of (_fill_statuses four_infos ["c1"; "c2"] ["c2"; "c3"]) "c3"
       = Some STATUS_DELETED
  /\ status_of (_fill_statuses four_infos ["c1"; "c2"] ["c2"; "c3"]) "c4"
       = Some STATUS_MISSING
  /\ res (run (scripted ["c1"; "c2"] ["c2"; "c3"] [])
              (status four_named a_remote None false false) tt)
     = Ok (_fill_statuses four_infos ["c1"; "c2"] ["c2"; "c3"]).
Proof.
  split; [|split].
  - intros infos L R c. rewrite lookup_fill_statuses.
    destruct (infos !! c) as [i|]; simpl; [|done].
    unfold set_status, STATUS_MAP.
    by destruct (bool_decide (c ∈ L)), (bool_decide (c ∈ R)).
  - intros infos L R. apply set_eq. intros c.
    rewrite !elem_of_dom, lookup_fill_statuses.
    by rewrite fmap_is_Some.
  - repeat split; vm_compute; reflexivity.
Qed.

(** Rewrites the run of a composed program into the runs of its parts. *)
Ltac run_simpl :=
  repeat first
    [ rewrite run_bind | rewrite run_try_except | rewrite run_ret
    | progress cbn [and_then or_else res final trace fst snd fmap
                    option_fmap option_map negb] ].

(** C3 (as stated, refuted): it is not the case that a named checksum
    absent from both the local and the remote list gets the status NEW;
    the named checksum c4 with empty presence lists gets MISSING. *)
Lemma absent_everywhere_is_not_new :
  ~ (forall (infos : gmap string info) (L R : list string) (c : string)
            (i : info),
        infos !! c = Some i -> c ∉ L -> c ∉ R ->
        status_of (_fill_statuses infos L R) c = Some STATUS_NEW).
Proof.
  intros H.
  specialize (H four_infos [] [] "c4" (mkInfo "d" None)).
  assert (Hs : status_of (_fill_statuses four_infos [] []) "c4"
               = Some STATUS_MISSING) by (vm_compute; reflexivity).
  rewrite Hs in H.
  assert (Some STATUS_MISSING = Some STATUS_NEW) as [=].
  apply H; [vm_compute; reflexivity | apply not_elem_of_nil ..].
Qed.

(** C3 (amended): a named checksum gets the status NEW exactly when it
    is in the local list and not in the remote list; a named checksum
    that is in neither list gets MISSING. *)
Theorem new_iff_local_only (infos : gmap string info) (L R : list string)
    (c : string) (i : info) :
  infos !! c = Some i ->
  (status_of (_fill_statuses infos L R) c = Some STATUS_NEW
     <-> c ∈ L /\ c ∉ R)
  /\ (c ∉ L -> c ∉ R ->
      status_of (_fill_statuses infos L R) c = Some STATUS_MISSING).
Proof.
  intros Hc. rewrite (status_of_fill_statuses _ _ _ _ _ Hc).
  split.
  - repeat case_bool_decide; simpl; intuition congruence.
  - intros HL HR.
    by rewrite (bool_decide_eq_false_2 _ HL), (bool_decide_eq_false_2 _ HR).
Qed.

Lemma new_iff_local_only_witness :
  four_infos !! "c1" = Some (mkInfo "a" None)
  /\ (status_of (_fill_statuses four_infos ["c1"; "c2"] ["c2"; "c3"]) "c1"
        = Some STATUS_NEW
      <-> "c1" ∈ ["c1"; "c2"] /\ "c1" ∉ ["c2"; "c3"])
  /\ ("c1" ∉ ["c1"; "c2"] -> "c1" ∉ ["c2"; "c3"] ->
      status_of (_fill_statuses four_infos ["c1"; "c2"] ["c2"; "c3"]) "c1"
        = Some STATUS_MISSING).
Proof.
  assert (H : four_infos !! "c1" = Some (mkInfo "a" None))
    by (vm_compute; reflexivity).
  split; [exact H|].
  exact (new_iff_local_only four_infos ["c1"; "c2"] ["c2"; "c3"] "c1" _ H).
Defined.

(** ** The remote probe of [status] *)

Lemma insert_sorted_Permutation x l : insert_sorted x l ≡ₚ x :: l.
Proof.
  induction l as [|y l IH]; simpl; [done|].
  destruct (String.leb x y); [done|].
  rewrite IH. apply Permutation_swap.
Qed.

Lemma sorted_Permutation l : sorted l ≡ₚ l.
Proof.
  induction l as [|x l IH]; simpl; [done|].
  by rewrite insert_sorted_Permutation, IH.
Qed.

Lemma sublist_full {A} (l k : list A) :
  l `sublist_of` k -> (length k <= length l)%nat -> l = k.
Proof.
  induction 1 as [|x l k Hs IH|x l k Hs IH]; simpl; intros Hlen.
  - done.
  - f_equal. apply IH. lia.
  - apply sublist_length in Hs. lia.
Qed.

Lemma cache_exists_cons (x : string) (l : list string) :
  cache_exists (x :: l) =
  (perform (changed_cache_file x) ≫= fun changed => mret (negb changed)) ≫=
  fun b => cache_exists l ≫=
  fun xs => mret (if b : bool then x :: xs else xs).
Proof. reflexivity. Qed.

Section StatusRuns.
Context (E : env).

(** A successful local presence query asked about every checksum, in
    order, and kept a sublist of them. *)
Lemma run_cache_exists (l : list string) (s : St E) (L : list string) :
  res (run E (cache_exists l) s) = Ok L ->
  trace (run E (cache_exists l) s) = changed_cache_file <$> l
  /\ L `sublist_of` l.
Proof.
  revert s L. induction l as [|x l IH]; intros s L.
  - simpl. intros [= <-]. split; [done|constructor].
  - rewrite cache_exists_cons. run_simpl.
    rewrite (run_perform (changed_cache_file x)).
    destruct (handle E (changed_cache_file x) s) as [[b|e] s1];
      run_simpl; [|done].
    destruct (run E (cache_exists l) s1) as [[xs|e] s2 tr] eqn:Hrun;
      run_simpl; [|done].
    destruct (IH s1 xs) as [Htr Hsub]; [by rewrite Hrun|].
    rewrite Hrun in Htr. simpl in Htr.
    intros [= <-]. split.
    + simpl. by rewrite Htr, app_nil_r.
    + destruct b; simpl; by constructor.
Qed.

(** When every status is OK there is nothing to warn about. *)
Lemma log_missing_caches_all_local (infos : gmap string info)
    (L : list string) :
  (forall c, is_Some (infos !! c) -> c ∈ L) ->
  _log_missing_caches (_fill_statuses infos L L) = mret tt.
Proof.
  intros HL. unfold _log_missing_caches.
  destruct (filter _ _) as [|[c i] rest] eqn:Hf; [done|].
  assert (Hin : (c, i) ∈ filter
            (fun x : string * info => info_status x.2 = Some STATUS_MISSING)
            (map_to_list (_fill_statuses infos L L)))
    by (rewrite Hf; left).
  apply list_elem_of_filter in Hin as [Hst Hin]. simpl in Hst.
  apply elem_of_map_to_list in Hin.
  rewrite lookup_fill_statuses in Hin.
  destruct (infos !! c) as [i0|] eqn:Hc; simpl in Hin; [|done].
  injection Hin as <-. simpl in Hst.
  rewrite bool_decide_eq_true_2 in Hst by (apply HL; by rewrite Hc).
  done.
Qed.

(** C4: whenever the local presence query of [status] returns, with
    the list [L] of locally present checksums: if [download] is set
    and every named checksum is in [L], the calls of [status] are the
    local queries alone (the remote presence query is not made) and
    the statuses are those of the table with the remote list equal to
    [L]; if [download] is not set, or some named checksum is not in
    [L], the remote presence query is made right after the local
    queries. *)
Theorem status_remote_probe (s : St E)
    (named_cache : gmap string (list string)) (remote : remote_t)
    (jobs : option Z) (show_checksums download : bool)
    (L : list string) :
  let md5s := (map_to_list named_cache).*1 in
  let probe :=
    remote_cache_exists md5s jobs (fspath (remote_path_info remote)) in
  let o := run E (status named_cache remote jobs show_checksums download) s in
  res (run E (cache_exists md5s) s) = Ok L ->
  (download = true -> (forall c, c ∈ md5s -> c ∈ L) ->
     trace o = changed_cache_file <$> md5s
     /\ res o =
        Ok (_fill_statuses (named_infos named_cache show_checksums) L L))
  /\ (download = false \/ (exists c, c ∈ md5s /\ c ∉ L) ->
      exists tr,
        trace o = ((changed_cache_file <$> md5s) ++ probe :: tr)%list).
Proof.
  intros md5s probe o HL.
  destruct (run_cache_exists md5s s L HL) as [Htr Hsub].
  subst o. unfold status. fold md5s. run_simpl.
  destruct (run E (cache_exists md5s) s) as [r s1 tr1] eqn:Hrun.
  simpl in HL, Htr. subst r tr1. run_simpl.
  split.
  - intros -> Hall.
    assert (L = md5s) as ->.
    { apply sublist_full; [done|].
      apply submseteq_length, NoDup_submseteq; [|done].
      apply NoDup_fst_map_to_list. }
    rewrite bool_decide_eq_true_2 by done. cbn [andb]. run_simpl.
    rewrite log_missing_caches_all_local; [by rewrite !app_nil_r|].
    intros c [i Hc]. unfold named_infos in Hc.
    rewrite map_lookup_imap in Hc.
    destruct (named_cache !! c) as [names|] eqn:Hn; [|done].
    subst md5s. apply list_elem_of_fmap.
    exists (c, names). split; [done|]. by apply elem_of_map_to_list.
  - intros Hcase.
    assert (download && bool_decide (sorted L = sorted md5s) = false)
      as ->.
    { destruct Hcase as [->|(c & Hc & HcL)]; [done|].
      apply andb_false_iff. right. apply bool_decide_eq_false_2.
      intros Heq. apply HcL.
      rewrite <- (sorted_Permutation L), Heq, sorted_Permutation. done. }
    rewrite (run_perform probe).
    destruct (handle E probe s1) as [[R|e] s2]; run_simpl.
    + eexists. reflexivity.
    + eexists. reflexivity.
Qed.
End StatusRuns.

Lemma status_remote_probe_witness :
  trace (run (scripted five_md5s [] []) (status five_named a_remote None false true) tt)
  = changed_cache_file <$> five_md5s.
Proof.
  refine (proj1 (proj1
    (status_remote_probe (scripted five_md5s [] []) tt five_named a_remote
       None false true five_md5s _) _ _)).
  - vm_compute. reflexivity.
  - reflexivity.
  - intros c Hc. exact Hc.
Defined.

(** ** The transfer engine *)




(** ** Protection *)

Lemma in_refusal_errnos (errno : Z) :
  errno ∈ [EPERM; EACCES] <-> errno = EPERM \/ errno = EACCES.
Proof. rewrite !elem_of_cons, elem_of_nil. tauto. Qed.

(** C7: [protect p] calls [chmod p 0o444].  If the call succeeds,
    [protect] succeeds.  If it fails with EROFS, [protect] succeeds and
    does nothing more.  If it fails with EPERM or EACCES, [protect]
    reads the mode of [p] and succeeds when its permission bits are
    0o444, and re-raises the error of [chmod] otherwise.  Any other
    error of [chmod] propagates. *)
Theorem protect_outcome (E : env) (s s1 : St E) (p : path_info)
    (r : result unit) :
  handle E (os_chmod p CACHE_MODE) s = (r, s1) ->
  let o := run E (protect p) s in
  match r with
  | Ok _ => o = mkOutcome (Ok tt) s1 [os_chmod p CACHE_MODE]
  | Fail (OSError errno) =>
      if bool_decide (errno = EROFS)
      then o = mkOutcome (Ok tt) s1 [os_chmod p CACHE_MODE]
      else if bool_decide (errno = EPERM \/ errno = EACCES)
      then forall (st_mode : Z) (s2 : St E),
          handle E (os_stat_st_mode p) s1 = (Ok st_mode, s2) ->
          o = mkOutcome
                (if bool_decide (S_IMODE st_mode = CACHE_MODE)
                 then Ok tt else Fail (OSError errno))
                s2 [os_chmod p CACHE_MODE; os_stat_st_mode p]
      else o = mkOutcome (Fail (OSError errno)) s1 [os_chmod p CACHE_MODE]
  | Fail e => o = mkOutcome (Fail e) s1 [os_chmod p CACHE_MODE]
  end.
Proof.
  intros Hchmod o. subst o. unfold protect. run_simpl.
  rewrite (run_perform (os_chmod p CACHE_MODE)), Hchmod.
  destruct r as [[]|e]; run_simpl; [done|].
  destruct e as [errno| | | | | |]; run_simpl; try done.
  case_bool_decide as Hrofs; run_simpl; [done|].
  case_bool_decide as Hperm.
  - intros st_mode s2 Hstat.
    rewrite bool_decide_eq_false_2
      by (intros Hn; apply Hn; by apply in_refusal_errnos).
    run_simpl. rewrite (run_perform (os_stat_st_mode p)), Hstat. run_simpl.
    repeat case_bool_decide; run_simpl; done.
  - rewrite bool_decide_eq_true_2 by (by rewrite in_refusal_errnos).
    run_simpl. done.
Qed.

Lemma protect_outcome_witness :
  run (chmod_refused EACCES 33060) (protect (PathInfo ["cache"; "aa"; "01"])) tt
  = mkOutcome (E:=chmod_refused EACCES 33060) (Ok tt) tt
      [os_chmod (PathInfo ["cache"; "aa"; "01"]) CACHE_MODE;
       os_stat_st_mode (PathInfo ["cache"; "aa"; "01"])].
Proof.
  exact (protect_outcome (chmod_refused EACCES 33060) tt tt
           (PathInfo ["cache"; "aa"; "01"]) (Fail (OSError EACCES))
           eq_refl 33060 tt eq_refl).
Defined.

(** ** Unprotection *)

(** C9: when [os.path.exists] answers that [p] does not exist,
    [unprotect p] raises a [DvcException]; the existence test is the
    only call it makes, so nothing on the file system is changed. *)
Theorem unprotect_missing_path (E : env) (s s1 : St E) (self : RemoteLOCAL)
    (p : path_info) :
  handle E (os_path_exists p) s = (Ok false, s1) ->
  run E (unprotect self p) s
  = mkOutcome
      (Fail (DvcException
               ("can't unprotect non-existing data '" ++ fspath p ++ "'")))
      s1 [os_path_exists p]
  /\ Forall (fun c => mutates c = false) (trace (run E (unprotect self p) s)).
Proof.
  intros Hexists.
  assert (Hrun : run E (unprotect self p) s
    = mkOutcome
        (Fail (DvcException
                 ("can't unprotect non-existing data '" ++ fspath p ++ "'")))
        s1 [os_path_exists p]).
  { unfold unprotect. run_simpl.
    rewrite (run_perform (os_path_exists p)), Hexists. by run_simpl. }
  split; [done|]. rewrite Hrun. simpl. by repeat constructor.
Qed.

Lemma unprotect_missing_path_witness :
  res (run (scripted [] [] []) (unprotect a_cache (PathInfo ["data"; "foo"])) tt)
  = Fail (DvcException "can't unprotect non-existing data 'data/foo'").
Proof.
  exact (f_equal res
           (proj1 (unprotect_missing_path (scripted [] [] []) tt tt a_cache
                     (PathInfo ["data"; "foo"]) eq_refl))).
Defined.

Section Unprotect.
Context (E : env) (self : RemoteLOCAL).

(** The file procedure on a symlink or hardlink. *)
Lemma run_unprotect_file_linked (p : path_info) (u : string)
    (s s1 s2 s3 s4 s5 : St E) (tq : list call) :
  let tmp := parent p // ("." ++ u) in
  run E (symlink_or_hardlink p) s = mkOutcome (Ok true) s1 tq ->
  handle E uuid s1 = (Ok u, s2) ->
  handle E (copyfile p tmp) s2 = (Ok tt, s3) ->
  handle E (fs_remove p) s3 = (Ok tt, s4) ->
  handle E (os_rename tmp p) s4 = (Ok tt, s5) ->
  run E (_unprotect_file self p) s
  = and_then
      (mkOutcome (Ok tt) s5
         (tq ++ [uuid; copyfile p tmp; fs_remove p; os_rename tmp p]))
      (fun _ s' => run E (perform (os_chmod p (_file_mode self))) s').
Proof.
  intros tmp Hq Hu Hcopy Hrm Hmv. unfold _unprotect_file.
  run_simpl. rewrite Hq. run_simpl.
  rewrite (run_perform uuid), Hu. run_simpl. fold tmp.
  rewrite (run_perform (copyfile p tmp)), Hcopy. run_simpl.
  rewrite (run_perform (fs_remove p)), Hrm. run_simpl.
  rewrite (run_perform (os_rename tmp p)), Hmv. run_simpl.
  unfold and_then. simpl. by rewrite <- !app_assoc.
Qed.

(** The file procedure on a file that is neither. *)
Lemma run_unprotect_file_copy (p : path_info) (s s1 : St E)
    (tq : list call) :
  run E (symlink_or_hardlink p) s = mkOutcome (Ok false) s1 tq ->
  run E (_unprotect_file self p) s
  = and_then (mkOutcome (Ok tt) s1 tq)
      (fun _ s' => run E (perform (os_chmod p (_file_mode self))) s').
Proof.
  intros Hq. unfold _unprotect_file. run_simpl. rewrite Hq. run_simpl.
  unfold and_then. simpl. by rewrite ?app_nil_r.
Qed.

(** The dispatch of [unprotect] on an existing path. *)
Lemma run_unprotect_existing (p : path_info) (isdir : bool)
    (s s1 s2 : St E) :
  handle E (os_path_exists p) s = (Ok true, s1) ->
  handle E (os_path_isdir p) s1 = (Ok isdir, s2) ->
  run E (unprotect self p) s
  = after (os_path_exists p) (after (os_path_isdir p)
      (run E (if isdir then _unprotect_dir self p
              else _unprotect_file self p) s2)).
Proof.
  intros Hex Hdir. unfold unprotect. run_simpl.
  rewrite (run_perform (os_path_exists p)), Hex. run_simpl.
  rewrite (run_perform (os_path_isdir p)), Hdir. run_simpl.
  unfold after. by destruct isdir.
Qed.

Lemma run_unprotect_dir (p : path_info) (fnames : list path_info)
    (s s1 s2 : St E) :
  handle E is_working_tree s = (Ok true, s1) ->
  handle E (tree_walk_files p) s1 = (Ok fnames, s2) ->
  run E (_unprotect_dir self p) s
  = after is_working_tree (after (tree_walk_files p)
      (run E (for_each fnames (_unprotect_file self)) s2)).
Proof.
  intros Hwt Hwalk. unfold _unprotect_dir. run_simpl.
  rewrite (run_perform is_working_tree), Hwt. run_simpl.
  unfold assert. run_simpl.
  rewrite (run_perform (tree_walk_files p)), Hwalk. run_simpl.
  reflexivity.
Qed.

(** The two questions of the link test are those of the code. *)
Lemma run_link_test (f : path_info) (b : bool) (s s' : St E)
    (t : list call) :
  link_test E f b s s' t ->
  run E (symlink_or_hardlink f) s = mkOutcome (Ok b) s' t.
Proof.
  intros [s0 s1 Hsym|s0 s1 s2 b0 Hsym Hhard];
    unfold symlink_or_hardlink; run_simpl;
    rewrite (run_perform (System_is_symlink f)), Hsym; run_simpl;
    [done|].
  by rewrite (run_perform (System_is_hardlink f)), Hhard.
Qed.

(** The file procedure, call by call, is what [_unprotect_file] does. *)
Lemma run_file_unprotected (f : path_info) (s s' : St E) (t : list call) :
  file_unprotected E self f s s' t ->
  run E (_unprotect_file self f) s = mkOutcome (Ok tt) s' t.
Proof.
  intros [s0 s1 s2 s3 s4 s5 s6 tq u Hq Hu Hcopy Hrm Hmv Hchmod
         |s0 s1 s2 tq Hq Hchmod]; apply run_link_test in Hq.
  - rewrite (run_unprotect_file_linked f u s0 s1 s2 s3 s4 s5 tq
               Hq Hu Hcopy Hrm Hmv).
    cbn [and_then res final trace].
    rewrite (run_perform (os_chmod f (_file_mode self))), Hchmod.
    simpl. by rewrite <- ?app_assoc.
  - rewrite (run_unprotect_file_copy f s0 s1 tq Hq).
    cbn [and_then res final trace].
    by rewrite (run_perform (os_chmod f (_file_mode self))), Hchmod.
Qed.

(** The loop of [_unprotect_dir] carries out the file procedure on
    each file in turn. *)
Lemma run_each_unprotected (l : list path_info) (s s' : St E)
    (t : list call) :
  each_unprotected E self l s s' t ->
  run E (for_each l (_unprotect_file self)) s = mkOutcome (Ok tt) s' t.
Proof.
  induction 1 as [s0|f l s0 s1 s2 t1 t2 Hf _ IH]; [done|].
  cbn [for_each]. run_simpl.
  rewrite (run_file_unprotected f s0 s1 t1 Hf). run_simpl.
  by rewrite IH.
Qed.

(** C8: on a path [p] that exists, [unprotect]
    - if [p] is not a directory and is a symlink or a hardlink, draws
      a uuid [u], copies [p] to [.u] in the directory of [p], removes
      [p], renames the copy to [p] and then sets the mode of [p] to
      the file mode, these being its only changing calls and in this
      order;
    - if [p] is not a directory and is neither a symlink nor a
      hardlink, only sets the mode of [p] to the file mode;
    - if [p] is a directory, walks [p] and carries out this file
      procedure on every file that the walk yields, one after the
      other in the order of the walk: when all these calls succeed,
      the calls of [unprotect] are the four questions followed by the
      calls of the procedure for each file, and it returns. *)
Theorem unprotect_existing_path (p : path_info) (s s1 s2 : St E)
    (isdir : bool) :
  handle E (os_path_exists p) s = (Ok true, s1) ->
  handle E (os_path_isdir p) s1 = (Ok isdir, s2) ->
  (isdir = false ->
   forall (u : string) (s3 s4 s5 s6 s7 s8 : St E) (tq : list call)
          (r : result unit),
     let tmp := parent p // ("." ++ u) in
     run E (symlink_or_hardlink p) s2 = mkOutcome (Ok true) s3 tq ->
     handle E uuid s3 = (Ok u, s4) ->
     handle E (copyfile p tmp) s4 = (Ok tt, s5) ->
     handle E (fs_remove p) s5 = (Ok tt, s6) ->
     handle E (os_rename tmp p) s6 = (Ok tt, s7) ->
     handle E (os_chmod p (_file_mode self)) s7 = (r, s8) ->
     run E (unprotect self p) s
     = mkOutcome r s8
         ([os_path_exists p; os_path_isdir p] ++ tq ++
          [uuid; copyfile p tmp; fs_remove p; os_rename tmp p;
           os_chmod p (_file_mode self)]))
  /\ (isdir = false ->
      forall (s3 s4 : St E) (tq : list call) (r : result unit),
        run E (symlink_or_hardlink p) s2 = mkOutcome (Ok false) s3 tq ->
        handle E (os_chmod p (_file_mode self)) s3 = (r, s4) ->
        run E (unprotect self p) s
        = mkOutcome r s4
            ([os_path_exists p; os_path_isdir p] ++ tq ++
             [os_chmod p (_file_mode self)]))
  /\ (isdir = true ->
      forall (s3 s4 s5 : St E) (fnames : list path_info) (t : list call),
        handle E is_working_tree s2 = (Ok true, s3) ->
        handle E (tree_walk_files p) s3 = (Ok fnames, s4) ->
        each_unprotected E self fnames s4 s5 t ->
        run E (unprotect self p) s
        = mkOutcome (Ok tt) s5
            ([os_path_exists p; os_path_isdir p; is_working_tree;
              tree_walk_files p] ++ t)).
Proof.
  intros Hex Hdir. rewrite (run_unprotect_existing p isdir s s1 s2 Hex Hdir).
  split; [|split]; intros ->.
  - intros u s3 s4 s5 s6 s7 s8 tq r tmp Hq Hu Hcopy Hrm Hmv Hchmod.
    rewrite (run_unprotect_file_linked p u s2 s3 s4 s5 s6 s7 tq
               Hq Hu Hcopy Hrm Hmv).
    cbn [and_then res final trace].
    rewrite (run_perform (os_chmod p (_file_mode self))), Hchmod.
    unfold after. simpl. by rewrite <- ?app_assoc.
  - intros s3 s4 tq r Hq Hchmod.
    rewrite (run_unprotect_file_copy p s2 s3 tq Hq).
    cbn [and_then res final trace].
    rewrite (run_perform (os_chmod p (_file_mode self))), Hchmod.
    reflexivity.
  - intros s3 s4 s5 fnames t Hwt Hwalk Heach.
    rewrite (run_unprotect_dir p fnames s2 s3 s4 Hwt Hwalk).
    by rewrite (run_each_unprotected fnames s4 s5 t Heach).
Qed.
End Unprotect.

(** ** Hard links to empty files *)

Section Posix.
Implicit Types (fs : fs_t) (p : path_info).

Lemma lookup_path_file fs p i :
  dentries fs !! parts p = Some (d_file i) ->
  lookup_path fs p = Some (parts p, d_file i).
Proof. intros H. unfold lookup_path. simpl. by rewrite H. Qed.

Lemma lookup_path_absent fs p :
  dentries fs !! parts p = None -> lookup_path fs p = None.
Proof. intros H. unfold lookup_path. simpl. by rewrite H. Qed.

Lemma posix_getsize_file fs p i n :
  dentries fs !! parts p = Some (d_file i) ->
  inodes fs !! i = Some n ->
  handle posix (os_path_getsize p) fs = (Ok (i_size n), fs).
Proof.
  intros Hp Hi. simpl. by rewrite (lookup_path_file _ _ _ Hp), Hi.
Qed.

Lemma posix_open_new fs p :
  dentries fs !! parts p = None ->
  handle posix (open_w_close p) fs = (Ok tt, create_file fs (parts p) 0).
Proof.
  intros Hp. simpl. unfold write_file.
  by rewrite (lookup_path_absent _ _ Hp), Hp.
Qed.

Lemma posix_hardlink_new fs src dst i :
  dentries fs !! parts src = Some (d_file i) ->
  dentries fs !! parts dst = None ->
  handle posix (System_hardlink src dst) fs
  = (Ok tt, {| dentries := <[parts dst := d_file i]> (dentries fs);
               inodes := inodes fs |}).
Proof. intros Hs Hd. simpl. unfold add_name. by rewrite Hs, Hd. Qed.

Lemma fresh_ino_unused fs : inodes fs !! fresh_ino fs = None.
Proof. unfold fresh_ino. apply not_elem_of_dom. apply is_fresh. Qed.

(** A second name of an inode makes its link count exceed one. *)
Lemma nlink_second_name fs src dst i :
  dentries fs !! src = Some (d_file i) ->
  dentries fs !! dst = None ->
  (1 < nlink {| dentries := <[dst := d_file i]> (dentries fs);
                inodes := inodes fs |} i)%nat.
Proof.
  intros Hs Hd. unfold nlink. simpl.
  rewrite (map_to_list_insert _ _ _ Hd), filter_cons_True by done.
  simpl. apply -> Nat.succ_lt_mono.
  apply elem_of_map_to_list in Hs.
  assert (Hin : (src, d_file i) ∈
            filter (fun kv : list string * dentry => kv.2 = d_file i)
                   (map_to_list (dentries fs)))
    by (by apply list_elem_of_filter).
  destruct (filter _ _); [by apply elem_of_nil in Hin | simpl; lia].
Qed.

(** C6: in the file-system model, let the source be a regular file
    and the destination a free name.  If the source has size zero,
    the hardlink method does not link: it makes the destination a new
    empty file with an inode of its own, and the verification that
    follows returns without the check of the base class.  If the
    source has a nonzero size, the method makes the destination a
    hard link (a second name of the source's inode), and the check of
    the base class is run on it, and passes. *)
Theorem hardlink_empty_file_exemption (self : RemoteLOCAL) fs
    (from_info to_info : path_info) (i : nat) (n : inode_t) :
  dentries fs !! parts from_info = Some (d_file i) ->
  inodes fs !! i = Some n ->
  dentries fs !! parts to_info = None ->
  let o :=
    run posix (link_then_verify self lt_hardlink from_info to_info) fs in
  (i_size n = 0 ->
     res o = Ok tt
     /\ trace o = [os_path_getsize from_info; open_w_close to_info;
                   os_path_getsize to_info]
     /\ exists j : nat,
          j <> i /\ inodes fs !! j = None
          /\ dentries (final o) !! parts to_info = Some (d_file j)
          /\ inodes (final o) !! j = Some (mkInode 0 420)
          /\ inodes (final o) !! i = Some n)
  /\ (i_size n <> 0 ->
      res o = Ok tt
      /\ trace o = [os_path_getsize from_info;
                    System_hardlink from_info to_info;
                    os_path_getsize to_info;
                    base_verify_link to_info lt_hardlink]
      /\ dentries (final o) !! parts to_info = Some (d_file i)
      /\ dentries (final o) !! parts from_info = Some (d_file i)).
Proof.
  intros Hfrom Hino Hto o. subst o.
  unfold link_then_verify, link_method, hardlink, _verify_link, getsize.
  assert (Hne : parts from_info <> parts to_info) by congruence.
  run_simpl.
  rewrite (run_perform (os_path_getsize from_info)),
    (posix_getsize_file _ _ _ _ Hfrom Hino).
  run_simpl. split; intros Hsize.
  - rewrite bool_decide_eq_true_2 by done.
    rewrite (run_perform (open_w_close to_info)), (posix_open_new _ _ Hto).
    run_simpl. rewrite bool_decide_eq_true_2 by done. run_simpl.
    pose proof (fresh_ino_unused fs) as Hfresh.
    set (fs' := create_file fs (parts to_info) 0).
    assert (Hto' : dentries fs' !! parts to_info
                   = Some (d_file (fresh_ino fs)))
      by (simpl; apply lookup_insert_eq).
    assert (Hino' : inodes fs' !! fresh_ino fs = Some (mkInode 0 420))
      by (simpl; apply lookup_insert_eq).
    rewrite (run_perform (os_path_getsize to_info)),
      (posix_getsize_file _ _ _ _ Hto' Hino').
    run_simpl. rewrite bool_decide_eq_true_2 by done. run_simpl.
    split; [done|]. split; [done|].
    exists (fresh_ino fs). repeat split; try done.
    + intros Heq. rewrite Heq, Hino in Hfresh. done.
    + simpl. rewrite lookup_insert_ne; [done|].
      intros Heq. rewrite Heq, Hino in Hfresh. done.
  - rewrite bool_decide_eq_false_2 by done.
    rewrite (run_perform (System_hardlink from_info to_info)),
      (posix_hardlink_new _ _ _ _ Hfrom Hto).
    run_simpl. rewrite bool_decide_eq_true_2 by done. run_simpl.
    set (fs' := {| dentries := <[parts to_info := d_file i]> (dentries fs);
                   inodes := inodes fs |}).
    assert (Hto' : dentries fs' !! parts to_info = Some (d_file i))
      by (simpl; apply lookup_insert_eq).
    rewrite (run_perform (os_path_getsize to_info)),
      (posix_getsize_file fs' _ _ _ Hto' Hino).
    run_simpl. rewrite bool_decide_eq_false_2 by done. run_simpl.
    rewrite (run_perform (base_verify_link to_info lt_hardlink)).
    assert (Hcheck : handle posix (base_verify_link to_info lt_hardlink) fs'
                     = (Ok tt, fs')).
    { simpl. unfold is_hardlinked. rewrite Hto'.
      rewrite bool_decide_eq_true_2; [done|].
      by apply (nlink_second_name fs (parts from_info)). }
    rewrite Hcheck. run_simpl. repeat split; try done.
    simpl. by rewrite lookup_insert_ne.
Qed.
End Posix.

Lemma hardlink_empty_file_exemption_witness :
  trace (run posix
           (link_then_verify a_cache lt_hardlink
              (PathInfo ["cache"; "d4"; "1d"]) (PathInfo ["data"; "empty"]))
           small_fs)
  = [os_path_getsize (PathInfo ["cache"; "d4"; "1d"]);
     open_w_close (PathInfo ["data"; "empty"]);
     os_path_getsize (PathInfo ["data"; "empty"])].
Proof.
  refine (proj1 (proj2 (proj1
    (hardlink_empty_file_exemption a_cache small_fs
       (PathInfo ["cache"; "d4"; "1d"]) (PathInfo ["data"; "empty"])
       1%nat (mkInode 0 292) _ _ _) _))).
  - vm_compute. reflexivity.
  - vm_compute. reflexivity.
  - vm_compute. reflexivity.
  - reflexivity.
Defined.

Lemma unprotect_existing_path_witness :
  let d := PathInfo ["data"] in
  let a := PathInfo ["data"; "a"] in
  let b := PathInfo ["data"; "b"] in
  let tmp := PathInfo ["data"; ".uuid"] in
  run posix (unprotect a_cache d) tree_fs
  = mkOutcome (E:=posix) (Ok tt)
      (final (run posix (unprotect a_cache d) tree_fs))
      [os_path_exists d; os_path_isdir d; is_working_tree;
       tree_walk_files d;
       System_is_symlink b; System_is_hardlink b; os_chmod b 420;
       System_is_symlink a; uuid; copyfile a tmp; fs_remove a;
       os_rename tmp a; os_chmod a 420].
Proof.
  intros d a b tmp.
  pose (s1 := (handle posix (os_chmod b 420) tree_fs).2).
  pose (s2 := (handle posix (copyfile a tmp) s1).2).
  pose (s3 := (handle posix (fs_remove a) s2).2).
  pose (s4 := (handle posix (os_rename tmp a) s3).2).
  pose (s5 := (handle posix (os_chmod a 420) s4).2).
  assert (Hb : file_unprotected posix a_cache b tree_fs s1
                 ([System_is_symlink b; System_is_hardlink b]
                  ++ [os_chmod b 420])).
  { apply (unprotected_plain posix a_cache b tree_fs tree_fs s1).
    - apply (test_hardlink posix b tree_fs tree_fs tree_fs false);
        vm_compute; reflexivity.
    - reflexivity. }
  assert (Ha : file_unprotected posix a_cache a s1 s5
                 ([System_is_symlink a]
                  ++ [uuid; copyfile a (tmp_beside a "uuid"); fs_remove a;
                      os_rename (tmp_beside a "uuid") a; os_chmod a 420])).
  { apply (unprotected_link posix a_cache a s1 s1 s1 s2 s3 s4 s5);
      [apply test_symlink|..]; reflexivity. }
  pose proof (each_unprotected_cons posix a_cache b [a] tree_fs s1 s5 _ _ Hb
                (each_unprotected_cons posix a_cache a [] s1 s5 s5 _ _ Ha
                   (each_unprotected_nil posix a_cache s5))) as Heach.
  pose proof (proj2 (proj2
    (unprotect_existing_path posix a_cache d tree_fs tree_fs tree_fs true
       ltac:(vm_compute; reflexivity) ltac:(vm_compute; reflexivity)))
    eq_refl tree_fs tree_fs s5 [b; a] _
    ltac:(reflexivity) ltac:(vm_compute; reflexivity) Heach) as Hrun.
  rewrite Hrun. reflexivity.
Defined.

(** ** Calls a program can make *)

Section AllCalls.
Context (P : call -> Prop).

Lemma all_calls_bind {A B} (p : prog A) (f : A -> prog B) :
  all_calls P p -> (forall a, all_calls P (f a)) -> all_calls P (p ≫= f).
Proof.
  intros Hp Hf. induction p as [a|e|c k IH]; simpl in *; [done..|].
  destruct Hp as [Hc Hk]. split; [done|]. intros r. by apply IH.
Qed.

Lemma all_calls_try_except {A} (p : prog A) (h : exn -> option (prog A)) :
  all_calls P p ->
  (forall e q, h e = Some q -> all_calls P q) ->
  all_calls P (try_except p h).
Proof.
  intros Hp Hh. induction p as [a|e|c k IH]; simpl in *; [done| |].
  - destruct (h e) as [q|] eqn:He; [by eapply Hh|done].
  - destruct Hp as [Hc Hk]. split; [done|]. intros r. by apply IH.
Qed.

Lemma all_calls_perform (c : call) : P c -> all_calls P (perform c).
Proof. intros Hc. split; [done|]. by intros [a|e]. Qed.

Lemma all_calls_for_each {A} (l : list A) (body : A -> prog unit) :
  (forall x, all_calls P (body x)) -> all_calls P (for_each l body).
Proof.
  intros Hbody. induction l as [|x l IH]; simpl; [done|].
  apply all_calls_bind; [done|]. by intros _.
Qed.

Lemma all_calls_run (E : env) {A} (p : prog A) (s : St E) :
  all_calls P p -> Forall P (trace (run E p s)).
Proof.
  revert s. induction p as [a|e|c k IH]; intros s Hp; simpl;
    [constructor..|].
  destruct Hp as [Hc Hk]. destruct (handle E c s) as [r s'].
  simpl. constructor; [done|]. by apply IH.
Qed.
Lemma all_calls_exists (p : path_info) :
  P (tree_exists p) -> all_calls P (exists_ p).
Proof.
  intros Hex. unfold exists_.
  apply all_calls_bind; [by destruct (bool_decide _)|].
  intros _. by apply all_calls_perform.
Qed.

Lemma all_calls_remove (p : path_info) :
  P (tree_exists p) -> P (fs_remove p) -> all_calls P (remove p).
Proof.
  intros Hex Hrm. unfold remove.
  case_bool_decide; [done|].
  apply all_calls_bind; [by apply all_calls_exists|].
  intros []; [by apply all_calls_perform|done].
Qed.

End AllCalls.

(** ** The unpacked directory *)

Section Unpacked.
Context (E : env) (self : RemoteLOCAL).

Lemma run_remove_present (p : path_info) (s s1 s2 : St E)
    (r : result unit) :
  scheme p = "local" ->
  handle E (tree_exists p) s = (Ok true, s1) ->
  handle E (fs_remove p) s1 = (r, s2) ->
  run E (remove p) s = mkOutcome r s2 [tree_exists p; fs_remove p].
Proof.
  intros Hlocal Hex Hrm. unfold remove, exists_. rewrite Hlocal.
  rewrite bool_decide_eq_false_2 by (by intros H).
  rewrite bool_decide_eq_true_2 by done.
  unfold assert. run_simpl.
  rewrite (run_perform (tree_exists p)), Hex. run_simpl.
  rewrite (run_perform (fs_remove p)), Hrm. reflexivity.
Qed.

Lemma update_unpacked_dir_links (checksum : string) :
  all_calls links_hard_then_sym (_update_unpacked_dir self checksum).
Proof.
  unfold _update_unpacked_dir.
  set (u := _get_unpacked_dir_path_info self checksum).
  apply all_calls_bind.
  { unfold _path_info_changed.
    apply all_calls_bind; [by apply all_calls_exists|].
    intros present. apply all_calls_bind; [|by intros []].
    destruct present; [|done].
    apply all_calls_bind; [by apply all_calls_perform|done]. }
  intros []; cbn [negb]; [|done].
  apply all_calls_bind; [by apply all_calls_remove|]. intros _.
  apply all_calls_try_except.
  - unfold rebuild_unpacked_dir, _create_unpacked_dir, makedirs.
    apply all_calls_bind; [by apply all_calls_perform|]. intros dir_info.
    apply all_calls_bind; [by apply all_calls_perform|]. intros _.
    apply all_calls_bind; [|intros _; by apply all_calls_perform].
    apply all_calls_for_each. intros entry.
    by apply all_calls_perform.
  - assert (Hcleanup : all_calls links_hard_then_sym
        (perform (logger_warning
                    ("Could not create '" ++ fspath u ++ "'"));;
         remove u)).
    { apply all_calls_bind; [by apply all_calls_perform|]. intros _.
      by apply all_calls_remove. }
    intros e q. destruct (is_DvcException e); [|done].
    intros [= <-]. exact Hcleanup.
Qed.

Lemma run_remove_absent (p : path_info) (s s1 : St E) :
  scheme p = "local" ->
  handle E (tree_exists p) s = (Ok false, s1) ->
  run E (remove p) s = mkOutcome (Ok tt) s1 [tree_exists p].
Proof.
  intros Hlocal Hex. unfold remove, exists_. rewrite Hlocal.
  rewrite bool_decide_eq_false_2 by (by intros H).
  rewrite bool_decide_eq_true_2 by done.
  unfold assert. run_simpl.
  rewrite (run_perform (tree_exists p)), Hex. by run_simpl.
Qed.

(** A loop of link requests that all succeed makes one request per
    manifest entry, in manifest order. *)
Lemma run_all_linked (u : path_info) (l : list (string * string))
    (s s' : St E) :
  all_linked E self u l s s' ->
  run E (for_each l (fun entry => perform (entry_link self u entry))) s
  = mkOutcome (Ok tt) s' (entry_link self u <$> l).
Proof.
  induction 1 as [s0|entry l s0 s1 s2 Hlink _ IH]; [done|].
  cbn [for_each]. run_simpl.
  rewrite (run_perform (entry_link self u entry)), Hlink. run_simpl.
  by rewrite IH.
Qed.

(** C10: every link request that [_update_unpacked_dir] makes names
    the list [hardlink, symlink]; no cache type is consulted.  When
    the unpacked directory is out of date, the method removes it,
    fetches the manifest, makes the directory and requests one link
    per manifest entry, in manifest order, from the entry's path in the
    cache to its relative path under the unpacked directory, and then
    records the directory in the state index; when these calls succeed
    they are all its calls and it returns.  When fetching the manifest
    or creating the tree raises a [DvcException], the method logs a
    warning and then asks whether the unpacked directory exists: if it
    does, its removal is the last call and gives the result; if it
    does not, the method returns. *)
Theorem update_unpacked_dir_cleans_up (checksum : string) (s0 : St E) :
  let u := _get_unpacked_dir_path_info self checksum in
  let msg := "Could not create '" ++ fspath u ++ "'" in
  let o := run E (_update_unpacked_dir self checksum) s0 in
  Forall links_hard_then_sym (trace o)
  /\ (forall (s1 s2 s3 s4 s5 s6 : St E) (t1 t2 : list call)
             (dir_info : list (string * string)),
        run E (_path_info_changed u) s0 = mkOutcome (Ok true) s1 t1 ->
        run E (remove u) s1 = mkOutcome (Ok tt) s2 t2 ->
        handle E (get_dir_cache checksum) s2 = (Ok dir_info, s3) ->
        handle E (fs_makedirs u (_dir_mode self)) s3 = (Ok tt, s4) ->
        all_linked E self u dir_info s4 s5 ->
        handle E (state_save u checksum) s5 = (Ok tt, s6) ->
        o = mkOutcome (Ok tt) s6
              (t1 ++ t2 ++
               [get_dir_cache checksum; fs_makedirs u (_dir_mode self)] ++
               (entry_link self u <$> dir_info) ++
               [state_save u checksum]))
  /\ (forall (s1 s2 s3 s4 s5 : St E) (t1 t2 t3 : list call) (e : exn)
             (present : bool),
        run E (_path_info_changed u) s0 = mkOutcome (Ok true) s1 t1 ->
        run E (remove u) s1 = mkOutcome (Ok tt) s2 t2 ->
        run E (rebuild_unpacked_dir self checksum u) s2
          = mkOutcome (Fail e) s3 t3 ->
        is_DvcException e = true ->
        handle E (logger_warning msg) s3 = (Ok tt, s4) ->
        handle E (tree_exists u) s4 = (Ok present, s5) ->
        if present
        then forall (r : result unit) (s6 : St E),
            handle E (fs_remove u) s5 = (r, s6) ->
            o = mkOutcome r s6
                  (t1 ++ t2 ++ t3 ++
                   [logger_warning msg; tree_exists u; fs_remove u])
        else o = mkOutcome (Ok tt) s5
                   (t1 ++ t2 ++ t3 ++ [logger_warning msg; tree_exists u])).
Proof.
  intros u msg o. split; [|split].
  - apply all_calls_run, update_unpacked_dir_links.
  - intros s1 s2 s3 s4 s5 s6 t1 t2 dir_info Hchanged Hrm Hget Hmk Hlinks
      Hsave.
    subst o. unfold _update_unpacked_dir. fold u. run_simpl.
    rewrite Hchanged. run_simpl. rewrite Hrm. run_simpl.
    unfold rebuild_unpacked_dir, _create_unpacked_dir, makedirs. run_simpl.
    rewrite (run_perform (get_dir_cache checksum)), Hget. run_simpl.
    rewrite (run_perform (fs_makedirs u (_dir_mode self))), Hmk. run_simpl.
    change (for_each dir_info _)
      with (for_each dir_info
              (fun entry => perform (entry_link self u entry))).
    rewrite (run_all_linked u dir_info s4 s5 Hlinks). run_simpl.
    rewrite (run_perform (state_save u checksum)), Hsave. run_simpl.
    simpl. by rewrite <- ?app_assoc.
  - intros s1 s2 s3 s4 s5 t1 t2 t3 e present Hchanged Hrm Hbuild He
      Hwarn Hex.
    assert (Ho : o = and_then
        (mkOutcome (Ok tt) s4 (t1 ++ t2 ++ t3 ++ [logger_warning msg]))
        (fun _ s' => run E (remove u) s')).
    { subst o. unfold _update_unpacked_dir. fold u. run_simpl.
      rewrite Hchanged. run_simpl. rewrite Hrm. run_simpl.
      rewrite Hbuild. run_simpl. rewrite He. run_simpl.
      fold msg. rewrite (run_perform (logger_warning msg)), Hwarn.
      run_simpl. by rewrite <- ?app_assoc. }
    rewrite Ho. cbn [and_then res final trace]. destruct present.
    + intros r s6 Hrm'.
      rewrite (run_remove_present u s4 s5 s6 r eq_refl Hex Hrm').
      simpl. by rewrite <- ?app_assoc.
    + rewrite (run_remove_absent u s4 s5 eq_refl Hex).
      simpl. by rewrite <- ?app_assoc.
Qed.
End Unpacked.

Lemma update_unpacked_dir_cleans_up_witness :
  let u := _get_unpacked_dir_path_info a_cache "ab12.dir" in
  let manifest := [("aa01", "x"); ("aa02", "sub/y")] in
  let E := answering (fun c =>
    match c return option (result (ans c)) with
    | get_dir_cache _ => Some (Ok manifest)
    | _ => None
    end) in
  run E (_update_unpacked_dir a_cache "ab12.dir") tt
  = mkOutcome (E:=E) (Ok tt) tt
      [tree_exists u; tree_exists u;
       get_dir_cache "ab12.dir"; fs_makedirs u 493;
       base_link (checksum_to_path_info a_cache "aa01") (u // "x")
         [lt_hardlink; lt_symlink];
       base_link (checksum_to_path_info a_cache "aa02") (u // "sub/y")
         [lt_hardlink; lt_symlink];
       state_save u "ab12.dir"]
  /\ run broken_links (_update_unpacked_dir a_cache "ab12.dir") tt
     = mkOutcome (E:=broken_links) (Ok tt) tt
         [tree_exists u; state_get u; tree_exists u; fs_remove u;
          get_dir_cache "ab12.dir"; fs_makedirs u 493;
          base_link (checksum_to_path_info a_cache "aa01") (u // "x")
            [lt_hardlink; lt_symlink];
          logger_warning
            "Could not create 'repo/.dvc/cache/ab/12.dir.unpacked'";
          tree_exists u; fs_remove u].
Proof.
  intros u manifest E. split.
  - refine (proj1 (proj2 (update_unpacked_dir_cleans_up E a_cache
                            "ab12.dir" tt))
              tt tt tt tt tt tt [tree_exists u] [tree_exists u] manifest
              eq_refl eq_refl eq_refl eq_refl _ eq_refl).
    apply (all_linked_cons E a_cache u ("aa01", "x") _ tt tt tt eq_refl).
    apply (all_linked_cons E a_cache u ("aa02", "sub/y") _ tt tt tt eq_refl).
    apply all_linked_nil.
  - exact (proj2 (proj2 (update_unpacked_dir_cleans_up broken_links a_cache
                           "ab12.dir" tt))
             tt tt tt tt tt
             [tree_exists u; state_get u] [tree_exists u; fs_remove u]
             [get_dir_cache "ab12.dir"; fs_makedirs u 493;
              base_link (checksum_to_path_info a_cache "aa01") (u // "x")
                [lt_hardlink; lt_symlink]]
             (DvcException "no possible cache types left") true
             eq_refl eq_refl eq_refl eq_refl eq_refl eq_refl
             (Ok tt) tt eq_refl).
Defined.

(** ** Placement by the four link methods *)

(** Closes a goal [c ∈ [c1; ...; cn]] on a listed call. *)
Ltac listed :=
  first [ apply list_elem_of_here | apply list_elem_of_further; listed ].


Section Placement.
Context (E : env) (self : RemoteLOCAL).

End Placement.


(** * Further properties *)

(** ** Plans *)

Lemma selected_fill_statuses (infos : gmap string info) (L R : list string)
    (st : status_t) (c : string) (i : info) :
  (c, i) ∈ filter (fun x : string * info => info_status x.2 = Some st)
                  (map_to_list (_fill_statuses infos L R))
  <-> exists i0, infos !! c = Some i0 /\ i = set_status i0 st
                 /\ STATUS_MAP (bool_decide (c ∈ L), bool_decide (c ∈ R)) = st.
Proof.
  rewrite list_elem_of_filter, elem_of_map_to_list, lookup_fill_statuses.
  simpl. split.
  - intros [Hst Hi]. destruct (infos !! c) as [i0|]; simpl in Hi; [|done].
    injection Hi as <-. simpl in Hst. injection Hst as Hst.
    exists i0. by rewrite Hst.
  - intros (i0 & -> & -> & <-). done.
Qed.

Lemma zip_fmap3 {A B C D} (f : A -> B) (g : A -> C) (h : A -> D)
    (l : list A) :
  zip (zip (f <$> l) (g <$> l)) (h <$> l) = (fun x => (f x, g x, h x)) <$> l.
Proof. induction l as [|x l IH]; simpl; [done|]. f_equal. exact IH. Qed.

(** The transfer that [_process] asks for a selected checksum. *)
Lemma map_star_plans (self : RemoteLOCAL) (download : bool)
    (remote : remote_t) (d : gmap string info) (st : status_t) :
  map_star (transfer_func self download)
           (_get_plans self download remote d st)
  = map_prog (fun x : string * info =>
        if download
        then perform (remote_download
                        (remote_checksum_to_path_info remote x.1)
                        (checksum_to_path_info self x.1) (info_name x.2)
                        (_dir_mode self) (_file_mode self))
        else perform (remote_upload
                        (checksum_to_path_info self x.1)
                        (remote_checksum_to_path_info remote x.1)
                        (info_name x.2)))
      (filter (fun x => info_status x.2 = Some st) (map_to_list d)).
Proof.
  unfold map_star, _get_plans.
  set (selected := filter _ _). clearbody selected.
  destruct download; cbn [fst snd]; rewrite zip_fmap3;
    induction selected as [|x l IH]; simpl; [done| |done|];
    by rewrite <- IH.
Qed.

Lemma STATUS_MAP_NEW (l r : bool) :
  STATUS_MAP (l, r) = STATUS_NEW <-> l = true /\ r = false.
Proof. destruct l, r; simpl; intuition congruence. Qed.

Lemma STATUS_MAP_DELETED (l r : bool) :
  STATUS_MAP (l, r) = STATUS_DELETED <-> l = false /\ r = true.
Proof. destruct l, r; simpl; intuition congruence. Qed.

(** X1: The upload plan drawn from the statuses of [_fill_statuses] holds
    exactly the named checksums that are in the local list and not in
    the remote list, each going from its path in the local cache to its
    path in the remote; the download plan holds exactly the named
    checksums that are in the remote list and not in the local list,
    each going from its path in the remote to its path in the local
    cache.  A checksum with the status OK or MISSING is in no plan. *)
Theorem planned_transfers (self : RemoteLOCAL) (remote : remote_t)
    (infos : gmap string info) (L R : list string)
    (from_info to_info : path_info) (name : string) :
  let d := _fill_statuses infos L R in
  let up := _get_plans self false remote d STATUS_NEW in
  let down := _get_plans self true remote d STATUS_DELETED in
  ((from_info, to_info, name) ∈ zip (zip (up.1.1) (up.1.2)) (up.2)
   <-> exists c i, infos !! c = Some i /\ c ∈ L /\ (c ∉ R)
         /\ from_info = checksum_to_path_info self c
         /\ to_info = remote_checksum_to_path_info remote c
         /\ name = info_name i)
  /\ ((from_info, to_info, name) ∈ zip (zip (down.1.1) (down.1.2)) (down.2)
      <-> exists c i, infos !! c = Some i /\ (c ∉ L) /\ c ∈ R
            /\ from_info = remote_checksum_to_path_info remote c
            /\ to_info = checksum_to_path_info self c
            /\ name = info_name i).
Proof.
  intros d up down. subst up down. unfold _get_plans. cbn [fst snd].
  rewrite !zip_fmap3, !list_elem_of_fmap. split; split.
  - intros ([c i] & [= -> -> ->] & Hin).
    apply selected_fill_statuses in Hin as (i0 & Hc & -> & Hst).
    apply STATUS_MAP_NEW in Hst as [HL HR].
    apply bool_decide_eq_true in HL. apply bool_decide_eq_false in HR.
    by exists c, i0.
  - intros (c & i & Hc & HL & HR & -> & -> & ->).
    exists (c, set_status i STATUS_NEW). split; [done|].
    apply selected_fill_statuses. exists i. repeat split; [done|].
    apply STATUS_MAP_NEW.
    by rewrite bool_decide_eq_true, bool_decide_eq_false.
  - intros ([c i] & [= -> -> ->] & Hin).
    apply selected_fill_statuses in Hin as (i0 & Hc & -> & Hst).
    apply STATUS_MAP_DELETED in Hst as [HL HR].
    apply bool_decide_eq_false in HL. apply bool_decide_eq_true in HR.
    by exists c, i0.
  - intros (c & i & Hc & HL & HR & -> & -> & ->).
    exists (c, set_status i STATUS_DELETED). split; [done|].
    apply selected_fill_statuses. exists i. repeat split; [done|].
    apply STATUS_MAP_DELETED.
    by rewrite bool_decide_eq_true, bool_decide_eq_false.
Qed.

(** ** Runs of list programs *)

Section ListRuns.
Context (E : env).

(** A list comprehension whose body makes one call per element: when
    it returns, it made these calls in order and returns one result per
    element. *)
Lemma run_map_prog_calls {A B} (f : A -> prog B) (c : A -> call)
    (l : list A) (s : St E) (results : list B) :
  (forall x s', trace (run E (f x) s') = [c x]) ->
  res (run E (map_prog f l) s) = Ok results ->
  trace (run E (map_prog f l) s) = c <$> l
  /\ length results = length l.
Proof.
  intros Hf. revert s results. induction l as [|x l IH]; intros s results.
  - simpl. by intros [= <-].
  - cbn [map_prog]. run_simpl. specialize (Hf x s).
    destruct (run E (f x) s) as [[y|e] s1 tr1]; run_simpl; [|done].
    simpl in Hf. subst tr1.
    destruct (run E (map_prog f l) s1) as [[ys|e] s2 tr] eqn:Hrun;
      run_simpl; [|done].
    destruct (IH s1 ys) as [Htr Hlen]; [by rewrite Hrun|].
    rewrite Hrun in Htr. simpl in Htr.
    intros [= <-]. simpl. by rewrite Htr, app_nil_r, Hlen.
Qed.
End ListRuns.

(** ** Transfers of a plan *)

(** X2: When the workers of a plan all return, the transfer calls of
    [_process] are, up to their order, one per checksum with the wanted
    status: a download from the checksum's path in the remote to its
    path in the local cache, an upload the other way round, under the
    checksum's display name; and there is one result per such checksum.
    Nothing is said of the order of the calls, which a pool of workers
    does not fix. *)
Theorem one_transfer_per_selected (E : env) (self : RemoteLOCAL)
    (download : bool) (remote : remote_t) (d : gmap string info)
    (st : status_t) (s : St E) (results : list Z) :
  let selected :=
    filter (fun x => info_status x.2 = Some st) (map_to_list d) in
  let o :=
    run E (map_star (transfer_func self download)
             (_get_plans self download remote d st)) s in
  res o = Ok results ->
  trace o
  ≡ₚ (fun x : string * info =>
        if download
        then remote_download (remote_checksum_to_path_info remote x.1)
               (checksum_to_path_info self x.1) (info_name x.2)
               (_dir_mode self) (_file_mode self)
        else remote_upload (checksum_to_path_info self x.1)
               (remote_checksum_to_path_info remote x.1) (info_name x.2))
     <$> selected
  /\ length results = length selected.
Proof.
  intros selected o Hres. subst o. revert Hres.
  rewrite map_star_plans. fold selected. intros Hres.
  eapply run_map_prog_calls in Hres as [-> Hlen]; [done|].
  intros x s'. destruct download.
  - by rewrite (run_perform (remote_download _ _ _ _ _)).
  - by rewrite (run_perform (remote_upload _ _ _)).
Qed.

Lemma one_transfer_per_selected_witness :
  let E := scripted five_md5s [] ["f2"; "f4"] in
  let d := _fill_statuses (named_infos five_named false) five_md5s [] in
  length (trace (run E (map_star (transfer_func a_cache false)
                          (_get_plans a_cache false a_remote d STATUS_NEW))
                   tt))
  = 5%nat.
Proof.
  intros E d.
  pose (o := run E (map_star (transfer_func a_cache false)
                      (_get_plans a_cache false a_remote d STATUS_NEW)) tt).
  pose (results := match res o with Ok l => l | Fail _ => [] end).
  assert (Hres : res o = Ok results) by (vm_compute; reflexivity).
  exact (eq_trans
           (Permutation_length
              (proj1 (one_transfer_per_selected E a_cache false a_remote d
                        STATUS_NEW tt results Hres)))
           eq_refl).
Defined.

(** ** What [status] returns *)

Section StatusResults.
Context (E : env).

Lemma run_status_all_local (s : St E)
    (named_cache : gmap string (list string)) (remote : remote_t)
    (jobs : option Z) (show_checksums : bool) (L : list string) :
  let md5s := (map_to_list named_cache).*1 in
  res (run E (cache_exists md5s) s) = Ok L ->
  (forall c, c ∈ md5s -> c ∈ L) ->
  run E (status named_cache remote jobs show_checksums true) s
  = mkOutcome
      (Ok (_fill_statuses (named_infos named_cache show_checksums) L L))
      (final (run E (cache_exists md5s) s)) (changed_cache_file <$> md5s).
Proof.
  intros md5s HL Hall.
  destruct (run_cache_exists E md5s s L HL) as [Htr Hsub].
  unfold status. fold md5s. run_simpl.
  destruct (run E (cache_exists md5s) s) as [r s1 tr1] eqn:Hrun.
  simpl in HL, Htr. subst r tr1. run_simpl.
  assert (L = md5s) as ->.
  { apply sublist_full; [done|].
    apply submseteq_length, NoDup_submseteq; [|done].
    apply NoDup_fst_map_to_list. }
  rewrite bool_decide_eq_true_2 by done. cbn [andb]. run_simpl.
  rewrite log_missing_caches_all_local; [by rewrite !app_nil_r|].
  intros c [i Hc]. unfold named_infos in Hc.
  rewrite map_lookup_imap in Hc.
  destruct (named_cache !! c) as [names|] eqn:Hn; [|done].
  subst md5s. apply list_elem_of_fmap.
  exists (c, names). split; [done|]. by apply elem_of_map_to_list.
Qed.

(** Whatever [status] returns is the status table filled in over the
    named infos, for some pair of presence lists. *)
Lemma run_status_result (s : St E)
    (named_cache : gmap string (list string)) (remote : remote_t)
    (jobs : option Z) (show_checksums download : bool)
    (d : gmap string info) :
  res (run E (status named_cache remote jobs show_checksums download) s)
    = Ok d ->
  exists L R : list string,
    d = _fill_statuses (named_infos named_cache show_checksums) L R.
Proof.
  unfold status. run_simpl.
  destruct (run E (cache_exists _) s) as [[L|e] s1 tr1]; run_simpl; [|done].
  match goal with
  | |- context [run E ?p s1] =>
      destruct (run E p s1) as [[R|e] s2 tr2]; run_simpl; [|done]
  end.
  match goal with
  | |- context [run E ?p s2] =>
      destruct (run E p s2) as [[[]|e] s3 tr3]; run_simpl; [|done]
  end.
  intros [= <-]. by exists L, R.
Qed.

(** X3: A dict returned by [status] has exactly the keys of the named
    cache, and every entry carries a status and its display name: the
    checksum itself under [show_checksums], the names joined by a space
    otherwise. *)
Theorem status_covers_named_cache (s : St E)
    (named_cache : gmap string (list string)) (remote : remote_t)
    (jobs : option Z) (show_checksums download : bool)
    (d : gmap string info) :
  res (run E (status named_cache remote jobs show_checksums download) s)
    = Ok d ->
  forall c : string,
    match named_cache !! c with
    | Some names =>
        exists st : status_t,
          d !! c = Some {| info_name := if show_checksums then c
                                        else String.concat " " names;
                           info_status := Some st |}
    | None => d !! c = None
    end.
Proof.
  intros Hd c. apply run_status_result in Hd as (L & R & ->).
  rewrite lookup_fill_statuses. unfold named_infos.
  rewrite map_lookup_imap.
  destruct (named_cache !! c) as [names|]; simpl; [|done].
  by eexists.
Qed.
End StatusResults.

Lemma status_covers_named_cache_witness :
  exists st : status_t,
    _fill_statuses four_infos ["c1"; "c2"] ["c2"; "c3"] !! "c3"
    = Some {| info_name := "c"; info_status := Some st |}.
Proof.
  exact (status_covers_named_cache (scripted ["c1"; "c2"] ["c2"; "c3"] [])
           tt four_named a_remote None false false
           (_fill_statuses four_infos ["c1"; "c2"] ["c2"; "c3"])
           ltac:(vm_compute; reflexivity) "c3").
Defined.

(** ** Pulling what is already cached *)

Lemma nothing_to_download (infos : gmap string info) (L : list string) :
  filter (fun x : string * info => info_status x.2 = Some STATUS_DELETED)
         (map_to_list (_fill_statuses infos L L)) = [].
Proof.
  destruct (filter _ _) as [|[c i] rest] eqn:Hf; [done|].
  assert (Hin : (c, i) ∈ filter
            (fun x : string * info => info_status x.2 = Some STATUS_DELETED)
            (map_to_list (_fill_statuses infos L L)))
    by (rewrite Hf; left).
  apply selected_fill_statuses in Hin as (i0 & _ & _ & Hst).
  apply STATUS_MAP_DELETED in Hst as [H1 H2]. congruence.
Qed.

(** The calls of a [pull] of checksums that are all in the local
    cache. *)
Lemma run_pull_all_local (E : env) (s : St E) (self : RemoteLOCAL)
    (named_cache : gmap string (list string)) (remote : remote_t)
    (jobs : option Z) (show_checksums : bool) (L : list string) :
  let md5s := (map_to_list named_cache).*1 in
  res (run E (cache_exists md5s) s) = Ok L ->
  (forall c, c ∈ md5s -> c ∈ L) ->
  run E (pull self named_cache remote jobs show_checksums) s
  = mkOutcome (Ok 0) (final (run E (cache_exists md5s) s))
      (changed_cache_file <$> md5s).
Proof.
  intros md5s HL Hall. unfold pull, _process. run_simpl.
  rewrite (run_status_all_local E s named_cache remote _ show_checksums L
             HL Hall).
  run_simpl. unfold _get_plans. rewrite nothing_to_download.
  cbn [fmap list_fmap fst snd length].
  rewrite bool_decide_eq_true_2 by done. run_simpl.
  by rewrite app_nil_r.
Qed.

(** X4: When every named checksum is in the local cache, [pull] returns 0
    after asking the local cache about each checksum: it makes no
    presence query to the remote and no call that changes anything (no
    download in particular), and it logs no warning. *)
Theorem pull_all_local_skips_remote (E : env) (s : St E)
    (self : RemoteLOCAL) (named_cache : gmap string (list string))
    (remote : remote_t) (jobs : option Z) (show_checksums : bool)
    (L : list string) :
  let md5s := (map_to_list named_cache).*1 in
  let o := run E (pull self named_cache remote jobs show_checksums) s in
  res (run E (cache_exists md5s) s) = Ok L ->
  (forall c, c ∈ md5s -> c ∈ L) ->
  res o = Ok 0
  /\ (changed_cache_file <$> md5s) `sublist_of` trace o
  /\ Forall (fun c => asks_remote c = false /\ mutates c = false
                      /\ is_warning c = false) (trace o).
Proof.
  intros md5s o HL Hall. subst o.
  rewrite (run_pull_all_local E s self named_cache remote jobs
             show_checksums L HL Hall).
  cbn [res trace]. split; [done|]. split; [done|].
  apply Forall_fmap, Forall_true. done.
Qed.

Lemma pull_all_local_skips_remote_witness :
  let o := run (scripted five_md5s [] [])
             (pull a_cache five_named a_remote None false) tt in
  res o = Ok 0
  /\ (changed_cache_file <$> five_md5s) `sublist_of` trace o
  /\ Forall (fun c => asks_remote c = false /\ mutates c = false
                      /\ is_warning c = false) (trace o).
Proof.
  refine (pull_all_local_skips_remote (scripted five_md5s [] []) tt a_cache
            five_named a_remote None false five_md5s _ _).
  - vm_compute. reflexivity.
  - intros c Hc. exact Hc.
Defined.

(** ** The warning about missing caches *)

(** X5: After [_fill_statuses], [_log_missing_caches] logs one warning when
    some named checksum is in neither presence list, and makes no call
    at all when every named checksum is in one of them. *)
Theorem warns_iff_missing (E : env) (s : St E) (infos : gmap string info)
    (L R : list string) :
  let o := run E (_log_missing_caches (_fill_statuses infos L R)) s in
  ((exists c, is_Some (infos !! c) /\ (c ∉ L) /\ c ∉ R) ->
   exists msg, trace o = [logger_warning msg])
  /\ ((forall c, is_Some (infos !! c) -> c ∈ L \/ c ∈ R) ->
      o = mkOutcome (Ok tt) s []).
Proof.
  intros o. subst o. unfold _log_missing_caches.
  destruct (filter _ _) as [|[c i] rest] eqn:Hf.
  - split; [|done]. intros (c & [i Hc] & HL & HR).
    assert (Hin : (c, set_status i STATUS_MISSING) ∈
              filter (fun x : string * info =>
                        info_status x.2 = Some STATUS_MISSING)
                     (map_to_list (_fill_statuses infos L R))).
    { apply selected_fill_statuses. exists i. repeat split; [done|].
      by rewrite (bool_decide_eq_false_2 _ HL),
        (bool_decide_eq_false_2 _ HR). }
    rewrite Hf in Hin. by apply elem_of_nil in Hin.
  - split.
    + intros _. eexists. by rewrite (run_perform (logger_warning _)).
    + intros Hall.
      assert (Hin : (c, i) ∈ filter
                (fun x : string * info =>
                   info_status x.2 = Some STATUS_MISSING)
                (map_to_list (_fill_statuses infos L R)))
        by (rewrite Hf; left).
      apply selected_fill_statuses in Hin as (i0 & Hc & _ & Hst).
      destruct (Hall c) as [H|H]; [by rewrite Hc|..];
        rewrite (bool_decide_eq_true_2 _ H) in Hst; simpl in Hst;
        by repeat case_bool_decide.
Qed.

Lemma warns_iff_missing_witness :
  exists msg,
    trace (run (scripted [] [] [])
             (_log_missing_caches
                (_fill_statuses four_infos ["c1"; "c2"] ["c2"; "c3"])) tt)
    = [logger_warning msg].
Proof.
  refine (proj1 (warns_iff_missing (scripted [] [] []) tt four_infos
                   ["c1"; "c2"] ["c2"; "c3"]) _).
  exists "c4". split; [vm_compute; eauto|].
  split; intros H; repeat (apply elem_of_cons in H as [H|H]; [discriminate|]);
    by apply elem_of_nil in H.
Defined.

(** ** The local presence query *)

(** A query that raises ends the local presence query: the checksums
    after it are not asked about. *)
Lemma run_cache_exists_raises (E : env) (before rest : list string)
    (x : string) (s s2 : St E) (Lb : list string) (e : exn) :
  res (run E (cache_exists before) s) = Ok Lb ->
  handle E (changed_cache_file x) (final (run E (cache_exists before) s))
  = (Fail e, s2) ->
  run E (cache_exists (before ++ x :: rest)%list) s
  = mkOutcome (Fail e) s2 (changed_cache_file <$> (before ++ [x])%list).
Proof.
  revert s Lb. induction before as [|y before IH]; intros s Lb.
  - cbn [app]. intros _ Hx. cbn [cache_exists filter_prog run final] in Hx.
    rewrite cache_exists_cons. run_simpl.
    rewrite (run_perform (changed_cache_file x)), Hx. by run_simpl.
  - rewrite <- app_comm_cons, !cache_exists_cons. run_simpl.
    rewrite (run_perform (changed_cache_file y)).
    destruct (handle E (changed_cache_file y) s) as [[b|e'] s1];
      run_simpl; [|done].
    destruct (run E (cache_exists before) s1) as [[xs|e'] s3 tr] eqn:Hrun;
      run_simpl; [|done].
    intros _ Hx.
    rewrite (IH s1 xs); [by run_simpl| by rewrite Hrun|].
    rewrite Hrun. exact Hx.
Qed.

(** X6: [cache_exists] asks about the checksums one by one, in the order
    given.  When it returns, it has asked about every checksum and its
    result is a sublist of the checksums given, in the same order.
    When the query about a checksum raises after the queries before it
    were answered, [cache_exists] raises the same exception and asks
    about none of the checksums after it. *)
Theorem cache_exists_in_order (E : env) (s : St E) (l : list string) :
  let o := run E (cache_exists l) s in
  trace o `prefix_of` (changed_cache_file <$> l)
  /\ (forall L, res o = Ok L ->
      trace o = changed_cache_file <$> l /\ L `sublist_of` l)
  /\ (forall (before rest Lb : list string) (x : string) (s2 : St E)
             (e : exn),
        l = (before ++ x :: rest)%list ->
        res (run E (cache_exists before) s) = Ok Lb ->
        handle E (changed_cache_file x)
          (final (run E (cache_exists before) s)) = (Fail e, s2) ->
        o = mkOutcome (Fail e) s2
              (changed_cache_file <$> (before ++ [x])%list)).
Proof.
  intros o. split; [|split; [apply run_cache_exists|]].
  - subst o. revert s. induction l as [|x l IH]; intros s; [done|].
    rewrite cache_exists_cons. run_simpl.
    rewrite (run_perform (changed_cache_file x)).
    destruct (handle E (changed_cache_file x) s) as [[b|e] s1]; run_simpl.
    + specialize (IH s1).
      destruct (run E (cache_exists l) s1) as [[xs|e] s2 tr]; run_simpl;
        simpl in *; rewrite ?app_nil_r; by apply prefix_cons.
    + simpl. apply prefix_cons, prefix_nil.
  - intros before rest Lb x s2 e -> Hb Hx. subst o.
    by apply (run_cache_exists_raises E before rest x s s2 Lb e).
Qed.

Lemma cache_exists_in_order_witness :
  let E := unreadable "c2" (OSError 5) in
  run E (cache_exists ["c1"; "c2"; "c3"]) tt
  = mkOutcome (E:=E) (Fail (OSError 5)) tt
      [changed_cache_file "c1"; changed_cache_file "c2"].
Proof.
  intros E.
  exact (proj2 (proj2 (cache_exists_in_order E tt ["c1"; "c2"; "c3"]))
           ["c1"] ["c3"] ["c1"] "c2" tt (OSError 5)
           eq_refl eq_refl eq_refl).
Defined.

(** ** Removal *)

(** X7: [remove] refuses a path of another scheme with
    [NotImplementedError] before making any call, and on a local path
    that does not exist it only asks for its existence: the file system
    is asked to remove a path only after the tree reported it as
    existing. *)
Theorem remove_is_guarded (E : env) (s : St E) (p : path_info) :
  let o := run E (remove p) s in
  (scheme p <> "local" -> o = mkOutcome (Fail NotImplementedError) s [])
  /\ (scheme p = "local" ->
      forall s1 : St E,
        handle E (tree_exists p) s = (Ok false, s1) ->
        o = mkOutcome (Ok tt) s1 [tree_exists p])
  /\ (fs_remove p ∈ trace o ->
      scheme p = "local" /\ (handle E (tree_exists p) s).1 = Ok true).
Proof.
  intros o. subst o. split; [|split].
  - intros Hs. unfold remove. by rewrite bool_decide_eq_true_2.
  - intros Hs s1 Hex. by apply run_remove_absent.
  - unfold remove, exists_. case_bool_decide as Hs; [by intros ?%elem_of_nil|].
    rewrite bool_decide_eq_true_2 by done.
    unfold assert. run_simpl. rewrite (run_perform (tree_exists p)).
    destruct (handle E (tree_exists p) s) as [[[]|e] s1]; run_simpl.
    + done.
    + simpl. intros H. apply elem_of_cons in H as [H|H]; [done|].
      by apply elem_of_nil in H.
    + simpl. intros H. apply elem_of_cons in H as [H|H]; [done|].
      by apply elem_of_nil in H.
Qed.

Lemma remove_is_guarded_witness :
  run (scripted [] [] []) (remove (mkPathInfo "s3" ["bucket"; "x"])) tt
  = mkOutcome (E:=scripted [] [] []) (Fail NotImplementedError) tt [].
Proof.
  exact (proj1 (remove_is_guarded (scripted [] [] []) tt
                  (mkPathInfo "s3" ["bucket"; "x"]))
           ltac:(discriminate)).
Defined.

(** ** Failure of a copy *)

(** X8: When one of the three steps of [copy] (copying to the temporary
    name, setting its mode, renaming it) raises, [copy] removes the
    temporary name if it exists and raises the same exception again;
    only an exception of the removal itself takes its place. *)
Theorem copy_failure_cleans_up (E : env) (self : RemoteLOCAL)
    (from_info to_info : path_info) (s s1 s2 : St E) (n : string)
    (e : exn) (tb : list call) :
  let tmp := parent to_info // n in
  let cleanup := run E (remove tmp) s2 in
  handle E (tmp_fname (pname to_info)) s = (Ok n, s1) ->
  run E (perform (System_copy from_info tmp);;
         perform (os_chmod tmp (_file_mode self));;
         perform (os_rename tmp to_info)) s1
    = mkOutcome (Fail e) s2 tb ->
  run E (copy self from_info to_info) s
  = mkOutcome
      (match res cleanup with Ok _ => Fail e | Fail e' => Fail e' end)
      (final cleanup)
      (tmp_fname (pname to_info) :: tb ++ trace cleanup).
Proof.
  intros tmp cleanup Htmp Hbody. unfold copy.
  rewrite run_bind, (run_perform (tmp_fname (pname to_info))), Htmp.
  cbn [and_then res final trace fst snd]. fold tmp.
  rewrite run_try_except.
  match goal with
  | |- context [or_else (@run E ?A ?b s1) _] =>
      assert (Hb : @run E A b s1 = mkOutcome (Fail e) s2 tb) by exact Hbody;
      rewrite Hb
  end.
  cbn [or_else res final trace fmap option_fmap option_map].
  rewrite run_bind. fold cleanup.
  destruct cleanup as [[[]|e'] s3 tr]; cbn [and_then res final trace];
    simpl; by rewrite ?app_nil_r.
Qed.

Lemma copy_failure_cleans_up_witness :
  let E := chmod_refused EACCES 0 in
  let from_info := PathInfo ["cache"; "b1"; "94"] in
  let to_info := PathInfo ["data"; "foo"] in
  let tmp := PathInfo ["data"; "foo.tmp"] in
  run E (copy a_cache from_info to_info) tt
  = mkOutcome (E:=E) (Fail (OSError EACCES)) tt
      [tmp_fname "foo"; System_copy from_info tmp; os_chmod tmp 420;
       tree_exists tmp].
Proof.
  intros E from_info to_info tmp.
  exact (copy_failure_cleans_up E a_cache from_info to_info tt tt tt
           "foo.tmp" (OSError EACCES)
           [System_copy from_info tmp; os_chmod tmp 420]
           eq_refl eq_refl).
Defined.

(** ** Building the unpacked directory *)

Section UnpackedMore.
Context (E : env) (self : RemoteLOCAL).

(** A loop whose body makes one call per element either finishes after
    the calls for all elements or raises after the calls for some
    first elements. *)
Lemma run_for_each_calls {A} (body : A -> prog unit) (c : A -> call)
    (l : list A) (s : St E) :
  (forall x s', trace (run E (body x) s') = [c x]) ->
  let o := run E (for_each l body) s in
  (res o = Ok tt /\ trace o = c <$> l)
  \/ (exists e k, res o = Fail e /\ trace o = c <$> take k l).
Proof.
  intros Hf. revert s. induction l as [|x l IH]; intros s.
  - left. done.
  - cbn [for_each]. run_simpl. specialize (Hf x s).
    destruct (run E (body x) s) as [[[]|e] s1 tr1]; simpl in Hf; subst tr1;
      run_simpl.
    + destruct (IH s1) as [[Hres Htr]|(e & k & Hres & Htr)].
      * left. by rewrite Hres, Htr.
      * right. exists e, (S k). by rewrite Hres, Htr.
    + right. by exists e, 1%nat.
Qed.

(** X9: [_create_unpacked_dir] makes the directory, then requests one link
    per manifest entry in manifest order, from the entry's cache path
    to its relative path under the unpacked directory, and records the
    directory in the state index last: the state index is written only
    after every link request has returned. *)
Theorem create_unpacked_dir_saves_state_last (checksum : string)
    (dir_info : list (string * string)) (u : path_info) (s : St E) :
  let link := fun entry : string * string =>
    base_link (checksum_to_path_info self entry.1) (u // entry.2)
      [lt_hardlink; lt_symlink] in
  let full :=
    (fs_makedirs u (_dir_mode self) :: (link <$> dir_info)
     ++ [state_save u checksum])%list in
  let o := run E (_create_unpacked_dir self checksum dir_info u) s in
  trace o `prefix_of` full
  /\ (res o = Ok tt -> trace o = full)
  /\ (state_save u checksum ∈ trace o -> trace o = full).
Proof.
  intros link full o. subst o. unfold _create_unpacked_dir, makedirs.
  run_simpl. rewrite (run_perform (fs_makedirs u (_dir_mode self))).
  destruct (handle E (fs_makedirs u (_dir_mode self)) s) as [[[]|e] s1];
    run_simpl.
  2:{ simpl. split; [apply prefix_cons, prefix_nil|]. split; [done|].
      intros H. apply elem_of_cons in H as [H|H]; [done|].
      by apply elem_of_nil in H. }
  match goal with
  | |- context [run E (for_each dir_info ?b) s1] =>
      pose proof (run_for_each_calls b link dir_info s1) as Hloop;
      destruct (run E (for_each dir_info b) s1) as [r s2 tr]
  end.
  destruct Hloop as [[Hres Htr]|(e & k & Hres & Htr)].
  { intros x s'. by rewrite (run_perform (base_link _ _ _)). }
  - simpl in Hres, Htr. subst r tr. run_simpl.
    rewrite (run_perform (state_save u checksum)).
    destruct (handle E (state_save u checksum) s2) as [r3 s3]. simpl.
    done.
  - simpl in Hres, Htr. subst r tr. run_simpl. simpl. rewrite ?app_nil_r.
    split; [|split; [done|]].
    + apply prefix_cons. rewrite <- (take_drop k dir_info) at 2.
      rewrite fmap_app, <- app_assoc. by apply prefix_app_r.
    + intros H. apply elem_of_cons in H as [H|H]; [done|].
      apply list_elem_of_fmap in H as (x & Hx & _). done.
Qed.

(** X10: When the unpacked directory exists and the state index knows it,
    [_update_unpacked_dir] returns after these two questions: it
    removes nothing, fetches no manifest and links nothing. *)
Theorem update_unpacked_dir_up_to_date (checksum v : string)
    (s s1 s2 : St E) :
  let u := _get_unpacked_dir_path_info self checksum in
  handle E (tree_exists u) s = (Ok true, s1) ->
  handle E (state_get u) s1 = (Ok (Some v), s2) ->
  v <> "" ->
  run E (_update_unpacked_dir self checksum) s
  = mkOutcome (Ok tt) s2 [tree_exists u; state_get u].
Proof.
  intros u Hex Hget Hv.
  unfold _update_unpacked_dir, _path_info_changed, exists_. fold u.
  rewrite (bool_decide_eq_true_2 (scheme u = "local")) by done.
  unfold assert. run_simpl.
  rewrite (run_perform (tree_exists u)), Hex. run_simpl.
  rewrite (run_perform (state_get u)), Hget. run_simpl.
  unfold truthy. rewrite bool_decide_eq_false_2 by done. by run_simpl.
Qed.

(** X11: An exception of the rebuild that is not a [DvcException] leaves
    [_update_unpacked_dir] as it is: no warning is logged and the
    unpacked directory is not removed again. *)
Theorem update_unpacked_dir_other_errors (checksum : string)
    (s0 s1 s2 s3 : St E) (t1 t2 t3 : list call) (e : exn) :
  let u := _get_unpacked_dir_path_info self checksum in
  run E (_path_info_changed u) s0 = mkOutcome (Ok true) s1 t1 ->
  run E (remove u) s1 = mkOutcome (Ok tt) s2 t2 ->
  run E (rebuild_unpacked_dir self checksum u) s2
    = mkOutcome (Fail e) s3 t3 ->
  is_DvcException e = false ->
  run E (_update_unpacked_dir self checksum) s0
  = mkOutcome (Fail e) s3 (t1 ++ t2 ++ t3).
Proof.
  intros u Hchanged Hrm Hbuild He.
  unfold _update_unpacked_dir. fold u. run_simpl.
  rewrite Hchanged. run_simpl. rewrite Hrm. run_simpl.
  rewrite Hbuild. run_simpl. rewrite He. run_simpl.
  by rewrite <- ?app_assoc.
Qed.
End UnpackedMore.

Lemma create_unpacked_dir_saves_state_last_witness :
  let u := _get_unpacked_dir_path_info a_cache "ab12.dir" in
  trace (run (scripted [] [] [])
           (_create_unpacked_dir a_cache "ab12.dir"
              [("aa01", "x"); ("aa02", "sub/y")] u) tt)
  = [fs_makedirs u 493;
     base_link (checksum_to_path_info a_cache "aa01") (u // "x")
       [lt_hardlink; lt_symlink];
     base_link (checksum_to_path_info a_cache "aa02") (u // "sub/y")
       [lt_hardlink; lt_symlink];
     state_save u "ab12.dir"].
Proof.
  intros u.
  exact (proj1 (proj2 (create_unpacked_dir_saves_state_last
                         (scripted [] [] []) a_cache "ab12.dir"
                         [("aa01", "x"); ("aa02", "sub/y")] u tt))
           eq_refl).
Defined.

Lemma update_unpacked_dir_up_to_date_witness :
  let E := answering (fun c =>
    match c return option (result (ans c)) with
    | tree_exists _ => Some (Ok true)
    | state_get _ => Some (Ok (Some "ab12.dir"))
    | _ => None
    end) in
  let u := _get_unpacked_dir_path_info a_cache "ab12.dir" in
  run E (_update_unpacked_dir a_cache "ab12.dir") tt
  = mkOutcome (E:=E) (Ok tt) tt [tree_exists u; state_get u].
Proof.
  intros E u.
  exact (update_unpacked_dir_up_to_date E a_cache "ab12.dir" "ab12.dir"
           tt tt tt eq_refl eq_refl ltac:(discriminate)).
Defined.

Lemma update_unpacked_dir_other_errors_witness :
  let E := answering (fun c =>
    match c return option (result (ans c)) with
    | fs_makedirs _ _ => Some (Fail (OSError 28))
    | _ => None
    end) in
  let u := _get_unpacked_dir_path_info a_cache "ab12.dir" in
  run E (_update_unpacked_dir a_cache "ab12.dir") tt
  = mkOutcome (E:=E) (Fail (OSError 28)) tt
      [tree_exists u; tree_exists u; get_dir_cache "ab12.dir";
       fs_makedirs u 493].
Proof.
  intros E u.
  exact (update_unpacked_dir_other_errors E a_cache "ab12.dir" tt tt tt tt
           [tree_exists u] [tree_exists u]
           [get_dir_cache "ab12.dir"; fs_makedirs u 493] (OSError 28)
           eq_refl eq_refl eq_refl eq_refl).
Defined.

(** ** Looking at the protection of a path *)

(** X12: [is_protected] only looks: none of its calls changes anything; on
    a local path that does not exist it answers [False] without asking
    for the mode. *)
Theorem is_protected_only_looks (E : env) (s : St E) (p : path_info) :
  let o := run E (is_protected p) s in
  Forall (fun c => mutates c = false) (trace o)
  /\ (scheme p = "local" ->
      forall s1 : St E,
        handle E (tree_exists p) s = (Ok false, s1) ->
        o = mkOutcome (Ok false) s1 [tree_exists p]).
Proof.
  intros o. subst o. split.
  - apply all_calls_run. unfold is_protected.
    apply all_calls_bind; [by apply all_calls_exists|].
    intros []; cbn [negb]; [|done].
    apply all_calls_bind; [by apply all_calls_perform|done].
  - intros Hs s1 Hex. unfold is_protected, exists_.
    rewrite bool_decide_eq_true_2 by done. unfold assert. run_simpl.
    rewrite (run_perform (tree_exists p)), Hex. by run_simpl.
Qed.

Lemma is_protected_only_looks_witness :
  run (scripted [] [] []) (is_protected (PathInfo ["data"; "foo"])) tt
  = mkOutcome (E:=scripted [] [] []) (Ok false) tt
      [tree_exists (PathInfo ["data"; "foo"])].
Proof.
  exact (proj2 (is_protected_only_looks (scripted [] [] []) tt
                  (PathInfo ["data"; "foo"]))
           eq_refl tt eq_refl).
Defined.

(** ** Unprotecting a directory *)

Section UnprotectDir.
Context (E : env) (self : RemoteLOCAL).

Lemma run_for_each_app {A} (body : A -> prog unit) (l1 l2 : list A)
    (s : St E) :
  run E (for_each (l1 ++ l2) body) s
  = and_then (run E (for_each l1 body) s)
      (fun _ s' => run E (for_each l2 body) s').
Proof.
  revert s. induction l1 as [|x l1 IH]; intros s.
  - simpl. unfold and_then. simpl. by destruct (run E (for_each l2 body) s).
  - simpl. change (bind (body x) ?f) with (body x ≫= f). run_simpl.
    destruct (run E (body x) s) as [[[]|e] s1 tr1]; run_simpl; [|done].
    rewrite IH.
    destruct (run E (for_each l1 body) s1) as [[[]|e] s2 tr2]; run_simpl;
      by rewrite <- ?app_assoc.
Qed.

(** X13: Outside a working tree, [_unprotect_dir] and [walk_files] raise
    [AssertionError] before walking: no file is listed or touched. *)
Theorem outside_working_tree (p : path_info) (s s1 : St E) :
  handle E is_working_tree s = (Ok false, s1) ->
  run E (_unprotect_dir self p) s
    = mkOutcome (Fail AssertionError) s1 [is_working_tree]
  /\ run E (walk_files p) s
     = mkOutcome (Fail AssertionError) s1 [is_working_tree].
Proof.
  intros Hwt. unfold _unprotect_dir, walk_files. run_simpl.
  rewrite !(run_perform is_working_tree), Hwt. by run_simpl.
Qed.

(** X14: [_unprotect_dir] handles the files in the order of the walk and
    stops at the first file whose unprotection raises: the exception
    propagates and the files after it are left as they are. *)
Theorem unprotect_dir_stops_at_first_failure (p f : path_info)
    (before rest : list path_info) (s s1 s2 s3 s4 : St E)
    (t1 t2 : list call) (e : exn) :
  handle E is_working_tree s = (Ok true, s1) ->
  handle E (tree_walk_files p) s1 = (Ok (before ++ f :: rest)%list, s2) ->
  run E (for_each before (_unprotect_file self)) s2
    = mkOutcome (Ok tt) s3 t1 ->
  run E (_unprotect_file self f) s3 = mkOutcome (Fail e) s4 t2 ->
  run E (_unprotect_dir self p) s
  = mkOutcome (Fail e) s4
      (is_working_tree :: tree_walk_files p :: t1 ++ t2).
Proof.
  intros Hwt Hwalk Hbefore Hf.
  rewrite (run_unprotect_dir E self p _ s s1 s2 Hwt Hwalk).
  rewrite run_for_each_app, Hbefore. cbn [and_then res final trace].
  cbn [for_each]. run_simpl. rewrite Hf. by run_simpl.
Qed.
End UnprotectDir.

Lemma outside_working_tree_witness :
  let E := answering (fun c =>
    match c return option (result (ans c)) with
    | is_working_tree => Some (Ok false)
    | _ => None
    end) in
  run E (_unprotect_dir a_cache (PathInfo ["data"])) tt
  = mkOutcome (E:=E) (Fail AssertionError) tt [is_working_tree].
Proof.
  intros E.
  exact (proj1 (outside_working_tree E a_cache (PathInfo ["data"]) tt tt
                  eq_refl)).
Defined.

Lemma unprotect_dir_stops_at_first_failure_witness :
  let f1 := PathInfo ["data"; "a"] in
  let f2 := PathInfo ["data"; "b"] in
  let E := answering (fun c =>
    match c return option (result (ans c)) with
    | tree_walk_files _ => Some (Ok [f1; f2])
    | os_chmod _ _ => Some (Fail (OSError EPERM))
    | _ => None
    end) in
  run E (_unprotect_dir a_cache (PathInfo ["data"])) tt
  = mkOutcome (E:=E) (Fail (OSError EPERM)) tt
      [is_working_tree; tree_walk_files (PathInfo ["data"]);
       System_is_symlink f1; System_is_hardlink f1; os_chmod f1 420].
Proof.
  intros f1 f2 E.
  exact (unprotect_dir_stops_at_first_failure E a_cache (PathInfo ["data"])
           f1 [] [f2] tt tt tt tt tt []
           [System_is_symlink f1; System_is_hardlink f1; os_chmod f1 420]
           (OSError EPERM) eq_refl eq_refl eq_refl eq_refl).
Defined.

(** ** Protection in the file-system model *)

Lemma S_IMODE_regular (m : Z) : 0 <= m < 4096 -> S_IMODE (32768 + m) = m.
Proof.
  intros Hm. unfold S_IMODE. change 4095 with (Z.ones 12).
  rewrite Z.land_ones by lia. change 32768 with (8 * 2 ^ 12).
  rewrite Z.add_comm, Z_mod_plus_full. apply Z.mod_small. lia.
Qed.

Section PosixFiles.
Implicit Types (fs : fs_t) (p : path_info).

Lemma posix_exists_file fs p i :
  dentries fs !! parts p = Some (d_file i) ->
  handle posix (tree_exists p) fs = (Ok true, fs)
  /\ handle posix (os_path_exists p) fs = (Ok true, fs)
  /\ handle posix (os_path_isdir p) fs = (Ok false, fs).
Proof.
  intros Hp. simpl. rewrite (lookup_path_file _ _ _ Hp).
  by rewrite bool_decide_eq_true_2.
Qed.

Lemma posix_chmod_file fs p i (mode : Z) :
  dentries fs !! parts p = Some (d_file i) ->
  handle posix (os_chmod p mode) fs = (Ok tt, set_mode fs i mode).
Proof. intros Hp. simpl. by rewrite (lookup_path_file _ _ _ Hp). Qed.

Lemma posix_stat_file fs p i n :
  dentries fs !! parts p = Some (d_file i) ->
  inodes fs !! i = Some n ->
  handle posix (os_stat_st_mode p) fs = (Ok (32768 + i_mode n), fs).
Proof.
  intros Hp Hi. simpl. by rewrite (lookup_path_file _ _ _ Hp), Hi.
Qed.

Lemma run_is_protected_file fs p i n :
  scheme p = "local" ->
  dentries fs !! parts p = Some (d_file i) ->
  inodes fs !! i = Some n ->
  0 <= i_mode n < 4096 ->
  run posix (is_protected p) fs
  = mkOutcome (E:=posix) (Ok (bool_decide (i_mode n = CACHE_MODE))) fs
      [tree_exists p; os_stat_st_mode p].
Proof.
  intros Hs Hp Hi Hm. unfold is_protected, exists_.
  rewrite bool_decide_eq_true_2 by done. unfold assert. run_simpl.
  rewrite (run_perform (tree_exists p)),
    (proj1 (posix_exists_file _ _ _ Hp)).
  run_simpl.
  rewrite (run_perform (os_stat_st_mode p)), (posix_stat_file _ _ _ _ Hp Hi).
  run_simpl. by rewrite S_IMODE_regular.
Qed.

(** X15: In the file-system model, on a regular file of the local scheme:
    after [protect], [is_protected] answers [True]; after [unprotect]
    of a file that is neither a symlink nor a hardlink, with a file
    mode other than [0o444], it answers [False].  Neither changes the
    size of the file. *)
Theorem protection_is_observed (self : RemoteLOCAL) fs p (i : nat)
    (n : inode_t) :
  scheme p = "local" ->
  dentries fs !! parts p = Some (d_file i) ->
  inodes fs !! i = Some n ->
  let o1 := run posix (protect p;; is_protected p) fs in
  let o2 := run posix (unprotect self p;; is_protected p) fs in
  (res o1 = Ok true
   /\ inodes (final o1) !! i = Some (mkInode (i_size n) CACHE_MODE))
  /\ (is_hardlinked fs p = Ok false ->
      0 <= _file_mode self < 4096 ->
      _file_mode self <> CACHE_MODE ->
      res o2 = Ok false
      /\ inodes (final o2) !! i
         = Some (mkInode (i_size n) (_file_mode self))).
Proof.
  intros Hs Hp Hi o1 o2. subst o1 o2. split.
  - unfold protect. run_simpl.
    rewrite (run_perform (os_chmod p CACHE_MODE)),
      (posix_chmod_file _ _ _ _ Hp).
    run_simpl.
    assert (Hi' : inodes (set_mode fs i CACHE_MODE) !! i
                  = Some (mkInode (i_size n) CACHE_MODE))
      by (simpl; by rewrite lookup_alter_eq, Hi).
    rewrite (run_is_protected_file (set_mode fs i CACHE_MODE) p i _ Hs Hp Hi')
      by done.
    by run_simpl.
  - intros Hlink Hmode Hne.
    unfold unprotect, _unprotect_file, symlink_or_hardlink. run_simpl.
    destruct (posix_exists_file _ _ _ Hp) as (_ & Hex & Hdir).
    rewrite (run_perform (os_path_exists p)), Hex. run_simpl.
    rewrite (run_perform (os_path_isdir p)), Hdir. run_simpl.
    rewrite (run_perform (System_is_symlink p)).
    assert (Hsym : handle posix (System_is_symlink p) fs = (Ok false, fs))
      by (simpl; unfold is_symlinked; by rewrite Hp).
    rewrite Hsym. run_simpl.
    rewrite (run_perform (System_is_hardlink p)).
    assert (Hhard : handle posix (System_is_hardlink p) fs = (Ok false, fs))
      by (simpl; by rewrite Hlink).
    rewrite Hhard. run_simpl.
    rewrite (run_perform (os_chmod p (_file_mode self))),
      (posix_chmod_file _ _ _ _ Hp).
    run_simpl.
    assert (Hi' : inodes (set_mode fs i (_file_mode self)) !! i
                  = Some (mkInode (i_size n) (_file_mode self)))
      by (simpl; by rewrite lookup_alter_eq, Hi).
    rewrite (run_is_protected_file (set_mode fs i (_file_mode self)) p i _
               Hs Hp Hi') by done.
    run_simpl. simpl. by rewrite bool_decide_eq_false_2.
Qed.
End PosixFiles.

Lemma protection_is_observed_witness :
  res (run posix (protect (PathInfo ["cache"; "b1"; "94"]);;
                  is_protected (PathInfo ["cache"; "b1"; "94"])) small_fs)
  = Ok true.
Proof.
  exact (proj1 (proj1 (protection_is_observed a_cache small_fs
                         (PathInfo ["cache"; "b1"; "94"]) 2%nat
                         (mkInode 6 292) eq_refl eq_refl eq_refl))).
Defined.

(** ** Unprotecting a link in the file-system model *)

Section PosixUnprotect.
Implicit Types (fs : fs_t) (p : path_info).

Lemma lookup_remove_tree fs (t k : list string) :
  ~ t `prefix_of` k ->
  dentries (remove_tree fs t) !! k = dentries fs !! k.
Proof.
  intros Hk. simpl. apply option_eq. intros d.
  rewrite map_lookup_filter_Some. simpl. tauto.
Qed.

Lemma run_symlink_or_hardlink_posix fs p :
  final (run posix (symlink_or_hardlink p) fs) = fs.
Proof.
  unfold symlink_or_hardlink. run_simpl.
  rewrite (run_perform (System_is_symlink p)). simpl.
  destruct (is_symlinked fs p); run_simpl; [done|].
  by rewrite (run_perform (System_is_hardlink p)).
Qed.

Lemma run_unprotect_link_posix (self : RemoteLOCAL) fs p
    (q : list string) (i : nat) (n : inode_t) :
  let tmp := parent p // ".uuid" in
  let j := fresh_ino fs in
  let o := run posix (unprotect self p) fs in
  lookup_path fs p = Some (q, d_file i) ->
  inodes fs !! i = Some n ->
  res (run posix (symlink_or_hardlink p) fs) = Ok true ->
  dentries fs !! parts tmp = None ->
  ~ parts p `prefix_of` parts tmp ->
  res o = Ok tt
  /\ dentries (final o) !! parts p = Some (d_file j)
  /\ inodes fs !! j = None
  /\ inodes (final o) !! j = Some (mkInode (i_size n) (_file_mode self))
  /\ inodes (final o) !! i = Some n
  /\ dentries (final o) !! parts tmp = None
  /\ (forall k : list string,
        ~ parts p `prefix_of` k -> k <> parts tmp ->
        dentries (final o) !! k = dentries fs !! k)
  /\ (forall k : list string,
        parts p `prefix_of` k -> k <> parts p ->
        dentries (final o) !! k = None).
Proof.
  intros tmp j o Hres Hino Hlink Htmp Hpre. subst o.
  pose proof (fresh_ino_unused fs) as Hfresh. fold j in Hfresh.
  assert (Hji : j <> i) by (intros ->; by rewrite Hino in Hfresh).
  assert (Hpt : parts p <> parts tmp) by (by intros Heq; rewrite <- Heq in Hpre).
  unfold unprotect, _unprotect_file. run_simpl.
  (* the path exists and is not a directory *)
  rewrite (run_perform (os_path_exists p)).
  assert (Hex : handle posix (os_path_exists p) fs = (Ok true, fs))
    by (simpl; rewrite Hres; by rewrite bool_decide_eq_true_2).
  rewrite Hex. run_simpl.
  rewrite (run_perform (os_path_isdir p)).
  assert (Hdir : handle posix (os_path_isdir p) fs = (Ok false, fs))
    by (simpl; by rewrite Hres).
  rewrite Hdir. run_simpl.
  (* it is a link *)
  pose proof (run_symlink_or_hardlink_posix fs p) as Hfinal.
  destruct (run posix (symlink_or_hardlink p) fs) as [r fs0 tq].
  simpl in Hlink, Hfinal. subst r fs0. run_simpl.
  (* the copy *)
  rewrite (run_perform uuid). cbn [handle posix posix_handle default_ans].
  run_simpl. change (parent p // ("." ++ "uuid")) with tmp.
  clearbody tmp.
  rewrite (run_perform (copyfile p tmp)).
  assert (Hcopy : handle posix (copyfile p tmp) fs
                  = (Ok tt, create_file fs (parts tmp) (i_size n))).
  { simpl. unfold copy_file, write_file.
    by rewrite Hres, Hino, (lookup_path_absent _ _ Htmp), Htmp. }
  rewrite Hcopy. run_simpl.
  set (fs1 := create_file fs (parts tmp) (i_size n)).
  (* the removal *)
  rewrite (run_perform (fs_remove p)).
  cbn [handle posix posix_handle]. run_simpl.
  set (fs2 := remove_tree fs1 (parts p)).
  assert (Htmp2 : dentries fs2 !! parts tmp = Some (d_file j)).
  { unfold fs2. rewrite lookup_remove_tree by done.
    simpl. apply lookup_insert_eq. }
  (* the rename *)
  rewrite (run_perform (os_rename tmp p)).
  assert (Hmv : handle posix (os_rename tmp p) fs2
    = (Ok tt, {| dentries :=
                   <[parts p := d_file j]>
                     (delete (parts tmp) (dentries fs2));
                 inodes := inodes fs2 |}))
    by (cbv [posix handle posix_handle]; by rewrite Htmp2).
  rewrite Hmv. run_simpl.
  set (fs3 := {| dentries := _; inodes := inodes fs2 |}).
  assert (Hp3 : dentries fs3 !! parts p = Some (d_file j))
    by (simpl; apply lookup_insert_eq).
  (* the mode *)
  rewrite (run_perform (os_chmod p (_file_mode self))),
    (posix_chmod_file fs3 p j _ Hp3).
  run_simpl. simpl.
  repeat split.
  - apply lookup_insert_eq.
  - done.
  - by rewrite lookup_alter_eq, lookup_insert_eq.
  - by rewrite lookup_alter_ne, lookup_insert_ne.
  - rewrite lookup_insert_ne by done. apply lookup_delete_eq.
  - intros k Hk Hkt.
    rewrite lookup_insert_ne by (intros <-; by apply Hk).
    rewrite lookup_delete_ne by done.
    change (dentries fs2 !! k = dentries fs !! k).
    unfold fs2. rewrite lookup_remove_tree by done.
    simpl. by rewrite lookup_insert_ne.
  - intros k Hk Hkp.
    rewrite lookup_insert_ne by done.
    destruct (decide (k = parts tmp)) as [->|Hkt];
      [apply lookup_delete_eq|].
    rewrite lookup_delete_ne by done.
    change (dentries fs2 !! k = None). unfold fs2. simpl.
    apply map_lookup_filter_None. right. intros d _. simpl. tauto.
Qed.

(** X16: In the file-system model, let [p] lead to a regular file with inode
    [i], as a symlink or as one of several hard links, and let the name
    [.uuid] beside [p] be free.  Then [unprotect p] succeeds and makes
    [p] a regular file with an inode of its own, of the same size and
    with the file mode; the inode [i] keeps its size and its mode, the
    temporary name is gone, and every name that is not at or below [p]
    is left as it was. *)
Theorem unprotect_replaces_link (self : RemoteLOCAL) fs p
    (q : list string) (i : nat) (n : inode_t) :
  let tmp := parent p // ".uuid" in
  let j := fresh_ino fs in
  let o := run posix (unprotect self p) fs in
  lookup_path fs p = Some (q, d_file i) ->
  inodes fs !! i = Some n ->
  res (run posix (symlink_or_hardlink p) fs) = Ok true ->
  dentries fs !! parts tmp = None ->
  ~ parts p `prefix_of` parts tmp ->
  res o = Ok tt
  /\ dentries (final o) !! parts p = Some (d_file j)
  /\ inodes fs !! j = None
  /\ inodes (final o) !! j = Some (mkInode (i_size n) (_file_mode self))
  /\ inodes (final o) !! i = Some n
  /\ dentries (final o) !! parts tmp = None
  /\ (forall k : list string,
        ~ parts p `prefix_of` k -> k <> parts tmp ->
        dentries (final o) !! k = dentries fs !! k).
Proof.
  intros tmp j o Hres Hino Hlink Htmp Hpre.
  destruct (run_unprotect_link_posix self fs p q i n Hres Hino Hlink Htmp
              Hpre) as (H1 & H2 & H3 & H4 & H5 & H6 & H7 & _).
  by repeat split.
Qed.

Lemma length_filter_one_key {A B} (l : list (A * B)) (a : A) :
  NoDup l.*1 -> (forall x, x ∈ l -> x.1 = a) -> (length l <= 1)%nat.
Proof.
  intros Hnd Hall. destruct l as [|x [|y l]]; simpl; [lia..|].
  exfalso. apply NoDup_cons in Hnd as [Hx _]. apply Hx.
  simpl. rewrite (Hall x), (Hall y); [left|right; left|left].
Qed.

(** X17: In the file-system model, under the same conditions and when no
    name uses the inode number that is free, the path is a copy after
    [unprotect]: [iscopy] answers [True]. *)
Theorem unprotect_gives_copy (self : RemoteLOCAL) fs p
    (q : list string) (i : nat) (n : inode_t) :
  let tmp := parent p // ".uuid" in
  lookup_path fs p = Some (q, d_file i) ->
  inodes fs !! i = Some n ->
  res (run posix (symlink_or_hardlink p) fs) = Ok true ->
  dentries fs !! parts tmp = None ->
  ~ parts p `prefix_of` parts tmp ->
  (forall k, dentries fs !! k <> Some (d_file (fresh_ino fs))) ->
  res (run posix (unprotect self p;; iscopy p) fs) = Ok true.
Proof.
  intros tmp Hres Hino Hlink Htmp Hpre Hwf.
  destruct (run_unprotect_link_posix self fs p q i n Hres Hino Hlink Htmp
              Hpre) as (H1 & H2 & _ & _ & _ & H6 & H7 & H8).
  run_simpl.
  destruct (run posix (unprotect self p) fs) as [r fs' tr].
  cbn [res final] in H1, H2, H6, H7, H8. subst r. run_simpl.
  change (parent p // ".uuid") with tmp in H6, H7.
  unfold iscopy, symlink_or_hardlink. run_simpl.
  rewrite (run_perform (System_is_symlink p)).
  cbv [posix handle posix_handle is_symlinked]. rewrite H2. run_simpl.
  rewrite (run_perform (System_is_hardlink p)).
  cbv [posix handle posix_handle is_hardlinked]. rewrite H2.
  rewrite bool_decide_eq_false_2; [by run_simpl|].
  apply Nat.le_ngt. unfold nlink.
  apply (length_filter_one_key _ (parts p)).
  - eapply sublist_NoDup;
      [apply (NoDup_fst_map_to_list (dentries fs'))|].
    apply fmap_sublist, sublist_filter.
  - intros [k d] [Hd Hin]%list_elem_of_filter. simpl in Hd. subst d.
    simpl.
    apply elem_of_map_to_list in Hin.
    destruct (decide (k = parts p)) as [->|Hkp]; [done|].
    destruct (decide (parts p `prefix_of` k)) as [Hk|Hk].
    { rewrite (H8 k Hk Hkp) in Hin. done. }
    destruct (decide (k = parts tmp)) as [->|Hkt].
    { rewrite H6 in Hin. done. }
    rewrite (H7 k Hk Hkt) in Hin. by apply Hwf in Hin.
Qed.
End PosixUnprotect.

Lemma unprotect_replaces_link_witness :
  let p := PathInfo ["data"; "foo"] in
  res (run posix (unprotect a_cache p) small_fs) = Ok tt
  /\ dentries (final (run posix (unprotect a_cache p) small_fs))
       !! ["cache"; "b1"; "94"]
     = Some (d_file 2).
Proof.
  intros p.
  destruct (unprotect_replaces_link a_cache small_fs p
              ["cache"; "b1"; "94"] 2%nat (mkInode 6 292)
              ltac:(vm_compute; reflexivity) ltac:(vm_compute; reflexivity)
              ltac:(vm_compute; reflexivity) ltac:(vm_compute; reflexivity)
              ltac:(intros [k Hk]; discriminate Hk))
    as (Hres & _ & _ & _ & _ & _ & Hframe).
  split; [exact Hres|].
  rewrite (Hframe ["cache"; "b1"; "94"]).
  - vm_compute. reflexivity.
  - intros [k Hk]. discriminate Hk.
  - discriminate.
Defined.

Lemma unprotect_gives_copy_witness :
  res (run posix (unprotect a_cache (PathInfo ["data"; "foo"]);;
                  iscopy (PathInfo ["data"; "foo"])) small_fs)
  = Ok true.
Proof.
  refine (unprotect_gives_copy a_cache small_fs (PathInfo ["data"; "foo"])
            ["cache"; "b1"; "94"] 2%nat (mkInode 6 292) _ _ _ _ _ _).
  - vm_compute. reflexivity.
  - vm_compute. reflexivity.
  - vm_compute. reflexivity.
  - vm_compute. reflexivity.
  - intros [k Hk]. discriminate Hk.
  - intros k Hk. apply elem_of_map_to_list in Hk.
    assert (Hall : Forall (fun x : list string * dentry =>
                             x.2 <> d_file (fresh_ino small_fs))
                          (map_to_list (dentries small_fs))).
    { vm_compute. repeat (constructor; [discriminate|]). constructor. }
    rewrite Forall_forall in Hall. exact (Hall _ Hk eq_refl).
Defined.

(** ** Verification of other link types *)

(** X18: The exemption of empty files holds for hardlinks only: for any
    other link type [_verify_link] never asks for the size and always
    hands the path to the check of the base class, whose result is its
    own.  For a hardlink whose size cannot be read, the error of the
    size query propagates and the base check is not run. *)
Theorem verify_link_exempts_hardlinks_only (E : env) (s : St E)
    (p : path_info) (lt : link_type) :
  (lt <> lt_hardlink ->
   run E (_verify_link p lt) s
   = mkOutcome (handle E (base_verify_link p lt) s).1
       (handle E (base_verify_link p lt) s).2 [base_verify_link p lt])
  /\ (forall (e : exn) (s1 : St E),
        handle E (os_path_getsize p) s = (Fail e, s1) ->
        run E (_verify_link p lt_hardlink) s
        = mkOutcome (Fail e) s1 [os_path_getsize p]).
Proof.
  split.
  - intros Hlt. unfold _verify_link.
    rewrite bool_decide_eq_false_2 by done. run_simpl.
    rewrite (run_perform (base_verify_link p lt)).
    by destruct (handle E (base_verify_link p lt) s).
  - intros e s1 Hsize. unfold _verify_link, getsize.
    rewrite bool_decide_eq_true_2 by done. run_simpl.
    rewrite (run_perform (os_path_getsize p)), Hsize. by run_simpl.
Qed.

Lemma verify_link_exempts_hardlinks_only_witness :
  run posix (_verify_link (PathInfo ["cache"; "d4"; "1d"]) lt_symlink)
      small_fs
  = mkOutcome (E:=posix) (Fail (DvcException "failed to verify symlink"))
      small_fs [base_verify_link (PathInfo ["cache"; "d4"; "1d"]) lt_symlink].
Proof.
  exact (proj1 (verify_link_exempts_hardlinks_only posix small_fs
                  (PathInfo ["cache"; "d4"; "1d"]) lt_symlink)
           ltac:(discriminate)).
Defined.

(** ** Logging *)

(** X19: Of the three handlers that [setup] installs, at most one accepts
    a given record, by the record's level alone: none below DEBUG,
    [console_debug] from DEBUG up to INFO, [console_info] from INFO up
    to WARNING, and [console_errors] from WARNING on; so a record goes
    to the standard output below WARNING and to the standard error
    from WARNING on, never to both.  Whether the logger hands the
    record to its handlers at all, and whether the handler's formatter
    then succeeds, is outside this statement. *)
Theorem one_handler_per_record (record : log_record) :
  filter (fun h => handles h record = true) dvc_handlers
  = if (levelno record <? DEBUG)%Z then []
    else if (levelno record <? INFO)%Z then [console_debug]
    else if (levelno record <? WARNING)%Z then [console_info]
    else [console_errors].
Proof.
  unfold dvc_handlers.
  rewrite !filter_cons, filter_nil.
  unfold handles, console_info, console_debug, console_errors,
    ExcludeErrorsFilter, ExcludeInfoFilter, DEBUG, INFO, WARNING.
  cbn [h_level h_stream h_filters forallb].
  repeat case_decide;
    repeat match goal with
      | H : context [(_ <=? _)%Z] |- _ => revert H
      | H : context [(_ <? _)%Z] |- _ => revert H
      end;
    repeat match goal with
      | |- context [(?a <=? ?b)%Z] => destruct (Z.leb_spec a b)
      | |- context [(?a <? ?b)%Z] => destruct (Z.ltb_spec a b)
      end;
    simpl; intros; try done; try lia; try congruence.
Qed.

(** X20: [ColorFormatter.format] returns the message of an INFO record as it
    is, whatever the exception information and the verbosity; for any
    other record it returns a string exactly when the level name is one
    of DEBUG, WARNING, ERROR and CRITICAL, and raises [KeyError] for
    every other level name. *)
Theorem format_by_level_name (Fore : Fore_t) (verbose : bool)
    (date stack : string) (record : log_record) (message : string) :
  (levelname record = "INFO" ->
   format Fore verbose date stack record message = Ok message)
  /\ (levelname record <> "INFO" ->
      if bool_decide (levelname record ∈
                        ["DEBUG"; "WARNING"; "ERROR"; "CRITICAL"])
      then exists out,
          format Fore verbose date stack record message = Ok out
      else format Fore verbose date stack record message
           = Fail (OtherError "KeyError")).
Proof.
  unfold format, color_code. split.
  - intros ->. done.
  - generalize (levelname record). intros nm Hinfo.
    rewrite (bool_decide_eq_false_2 _ Hinfo).
    destruct (decide (nm ∈ ["DEBUG"; "WARNING"; "ERROR"; "CRITICAL"]))
      as [Hin|Hnin].
    + rewrite (bool_decide_eq_true_2 _ Hin).
      repeat (apply elem_of_cons in Hin as [->|Hin]);
        [by eexists..|by apply elem_of_nil in Hin].
    + rewrite (bool_decide_eq_false_2 _ Hnin).
      rewrite !bool_decide_eq_false_2; [done|..];
        intros ->; apply Hnin; listed.
Qed.

Lemma format_by_level_name_witness :
  format (mkFore "b" "g" "r" "y" "n") true "now" "trace"
    (mkRecord "INFO" 20 (Some ["boom"]) false) "done"
  = Ok "done".
Proof.
  exact (proj1 (format_by_level_name (mkFore "b" "g" "r" "y" "n") true
                  "now" "trace" (mkRecord "INFO" 20 (Some ["boom"]) false)
                  "done") eq_refl).
Defined.
